(** * TaskConfigurations (packages/task/src/browser/task-configurations.ts)

    A shallow embedding of the class that watches [.theia/tasks.json] and
    keeps a label -> task map.  The class is written with [async]
    functions; each of them is embedded as the sequence of its
    synchronous segments, one per [await], and the segments are run by a
    small model of the JavaScript event loop (one turn per incoming
    message, continuations of already settled promises run as microtasks
    at the end of the turn). *)

From Stdlib Require Import List String Ascii Bool ZArith Lia.
Import ListNotations.
Open Scope string_scope.
Set Warnings "-register-all".

(* ------------------------------------------------------------------ *)
(** ** Run-time values *)

(** What [jsoncparser.parse] can return, plus [undefined].  The
    TypeScript types ([TaskOptions], [string]) are erased at run time, so
    the code is embedded over these values. *)
Inductive Value : Type :=
| VUndefined
| VNull
| VBool (b : bool)
| VNum (n : Z)
| VStr (s : string)
| VArr (items : list Value)
| VObj (fields : list (string * Value)).

Inductive Err : Type :=
| TypeError
| Failure (reason : string).

(** Outcome of an evaluation that may throw, and of a promise. *)
Inductive Settled (A : Type) : Type :=
| Fulfilled (a : A)
| Rejected (e : Err).
Arguments Fulfilled {A} a.
Arguments Rejected {A} e.

Fixpoint lookup_field (key : string) (fields : list (string * Value)) : Value :=
  match fields with
  | [] => VUndefined
  | (k, v) :: rest => if String.eqb k key then v else lookup_field key rest
  end.

(** [v[key]] and [v.key], for the two keys the class reads (["tasks"] and
    ["label"], which no array, string, number or boolean defines):
    a TypeError on [undefined] and [null], the own property of an object,
    [undefined] on everything else. *)
Definition get_prop (v : Value) (key : string) : Settled Value :=
  match v with
  | VUndefined | VNull => Rejected TypeError
  | VObj fields => Fulfilled (lookup_field key fields)
  | _ => Fulfilled VUndefined
  end.

Fixpoint chars (s : string) : list Value :=
  match s with
  | EmptyString => []
  | String c rest => VStr (String c EmptyString) :: chars rest
  end.

(** [for (const x of v)] as the language defines it: arrays and strings
    are iterable (a string yields its characters, here one per byte,
    which is exact for ASCII text), nothing else that a JSON document
    holds is.  On [undefined] and [null] every compilation of the loop
    throws a TypeError; on booleans, numbers and objects a compilation to
    an index loop over [length] does not throw, so the statements below
    rely on this function on arrays, [undefined] and [null] only. *)
Definition iterate (v : Value) : Settled (list Value) :=
  match v with
  | VArr items => Fulfilled items
  | VStr s => Fulfilled (chars s)
  | _ => Rejected TypeError
  end.

(** [a === b] between labels of two different tasks of one parsed
    document (also the key comparison of [Map]): primitives compare by
    value; two arrays or objects are distinct references, never equal. *)
Definition strict_eq (a b : Value) : bool :=
  match a, b with
  | VUndefined, VUndefined => true
  | VNull, VNull => true
  | VBool x, VBool y => Bool.eqb x y
  | VNum x, VNum y => Z.eqb x y
  | VStr x, VStr y => String.eqb x y
  | _, _ => false
  end.

(* ------------------------------------------------------------------ *)
(** ** The JavaScript [Map], in insertion order *)

Definition TaskMap := list (Value * Value).

Fixpoint map_has (k : Value) (m : TaskMap) : bool :=
  match m with
  | [] => false
  | (k', _) :: rest => strict_eq k' k || map_has k rest
  end.

Fixpoint map_get (k : Value) (m : TaskMap) : option Value :=
  match m with
  | [] => None
  | (k', v) :: rest => if strict_eq k' k then Some v else map_get k rest
  end.

(** [Map.prototype.set]: an existing key keeps its place and gets the new
    value, a new key goes last. *)
Fixpoint map_set (k v : Value) (m : TaskMap) : TaskMap :=
  match m with
  | [] => [(k, v)]
  | (k', v') :: rest =>
      if strict_eq k' k then (k', v) :: rest else (k', v') :: map_set k v rest
  end.

(* ------------------------------------------------------------------ *)
(** ** Collaborators and the instance *)

(** [ParseError] of jsonc-parser. *)
Module ParseError.
Record t : Type := mk {
  error : nat;
  offset : nat;
  length : nat
}.
End ParseError.

(** The library functions the class calls: [URI.resolve(..).toString()],
    [jsoncparser.stripComments] and [jsoncparser.parse] (which returns
    the value and fills the [errors] array). *)
Class Libraries : Type := {
  uri_resolve : string -> string -> string;
  stripComments : string -> string;
  parse : string -> Value * list ParseError.t
}.

(** The text of each logger call, one constructor per template string. *)
Inductive Message : Type :=
| MsgParse (uri : option string) (error length offset : nat)   (* line 166 *)
| MsgRead (uri : option string)                                (* line 172 *)
| MsgDuplicate (taskfile : string) (label : Value)             (* line 182 *)
| MsgMissing (taskfile rootUri : string)                       (* line 96 *)
| MsgCaught (err : Err).                                       (* line 60 *)

(** Calls made on the collaborators, oldest first. *)
Inductive Effect : Type :=
| LoggerError (m : Message)
| LoggerWarn (m : Message)
| TaskConfigurationChanged (labels : list Value)
| WatchFileChanges (uri : string)
| UnwatchFileChanges (watchId : nat)
| WatcherServerDispose.

(** What [toDispose] holds. *)
Inductive Disposable : Type :=
| DWatcherServer                (* line 47 *)
| DClear                        (* lines 65-68 *)
| DUnwatch (watchId : nat).     (* lines 88-90 *)

(** A client is its callback: [None] when it returns, [Some e] when it
    throws [e]. *)
Definition TaskConfigurationClient := list Value -> option Err.

Record State : Type := mkState {
  tasksMap : TaskMap;
  watchedConfigFileUri : option string;      (* [None] is [undefined] *)
  client : option TaskConfigurationClient;
  toDispose : list Disposable;
  effects : list Effect
}.

Definition TASKFILEPATH : string := ".theia".
Definition TASKFILE : string := "tasks.json".

Definition set_tasksMap (m : TaskMap) (s : State) : State :=
  mkState m (watchedConfigFileUri s) (client s) (toDispose s) (effects s).

Definition set_watched (u : string) (s : State) : State :=
  mkState (tasksMap s) (Some u) (client s) (toDispose s) (effects s).

Definition set_client (c : option TaskConfigurationClient) (s : State) : State :=
  mkState (tasksMap s) (watchedConfigFileUri s) c (toDispose s) (effects s).

Definition push_disposable (d : Disposable) (s : State) : State :=
  mkState (tasksMap s) (watchedConfigFileUri s) (client s) (toDispose s ++ [d]) (effects s).

Definition emit (e : Effect) (s : State) : State :=
  mkState (tasksMap s) (watchedConfigFileUri s) (client s) (toDispose s) (effects s ++ [e]).

(** State right after the constructor. *)
Definition new_instance : State :=
  mkState [] None None [DWatcherServer; DClear] [].

(** [getTaskLabels]. *)
Definition getTaskLabels (s : State) : list Value :=
  map fst (tasksMap s).

(** [getTask]; [None] is [undefined]. *)
Definition getTask (taskLabel : string) (s : State) : option Value :=
  if map_has (VStr taskLabel) (tasksMap s)
  then map_get (VStr taskLabel) (tasksMap s)
  else None.

(* ------------------------------------------------------------------ *)
(** ** filterDuplicates *)

(** [filteredTasks.some(t => t.label === task.label)]: left to right,
    stops at the first hit; the callback throws when [t] or [task] is
    [null]. *)
Fixpoint some_same_label (filteredTasks : list Value) (task : Value) : Settled bool :=
  match filteredTasks with
  | [] => Fulfilled false
  | t :: rest =>
      match get_prop t "label" with
      | Rejected e => Rejected e
      | Fulfilled tl =>
          match get_prop task "label" with
          | Rejected e => Rejected e
          | Fulfilled l =>
              if strict_eq tl l then Fulfilled true else some_same_label rest task
          end
      end
  end.

(** The loop of lines 179-186 over the remaining [tasks]. *)
Fixpoint filter_loop (tasks filteredTasks : list Value) (s : State)
  : State * Settled (list Value) :=
  match tasks with
  | [] => (s, Fulfilled filteredTasks)
  | task :: rest =>
      match some_same_label filteredTasks task with
      | Rejected e => (s, Rejected e)
      | Fulfilled true =>
          match get_prop task "label" with
          | Rejected e => (s, Rejected e)
          | Fulfilled l =>
              filter_loop rest filteredTasks
                (emit (LoggerError (MsgDuplicate TASKFILE l)) s)
          end
      | Fulfilled false => filter_loop rest (filteredTasks ++ [task]) s
      end
  end.

Definition filterDuplicates (tasks : Value) (s : State) : State * Settled (list Value) :=
  match iterate tasks with
  | Rejected e => (s, Rejected e)
  | Fulfilled items => filter_loop items [] s
  end.

(* ------------------------------------------------------------------ *)
(** ** The asynchronous functions, segment by segment *)

Inductive FileChangeType : Type := UPDATED | ADDED | DELETED.

Record FileChange : Type := mkFileChange {
  uri : string;
  type : FileChangeType
}.

(** An activation suspended on a promise of a collaborator. *)
Inductive Waiting : Type :=
| ReadTasksExists (u : option string)           (* line 154, called from line 138 *)
| ReadTasksContent (u : option string)          (* line 158 *)
| WatchRegister (rootUri configFile : string)   (* line 87 *)
| WatchExists (rootUri configFile : string).    (* line 93 *)

(** A continuation whose promise has settled inside the class itself: it
    runs as a microtask, after the synchronous code of the current turn. *)
Inductive Microtask : Type :=
| ResumeRefresh (r : Settled (option (list Value)))   (* line 138: readTasks settled *)
| ResumeHandler.                                      (* line 54: onDidTaskFileChange settled *)

(** How the promises of the class settle. *)
Inductive Outcome : Type :=
| WatchConfigurationFileSettled (rootUri : string) (r : Settled bool)
| RefreshTasksSettled (r : Settled unit).

Record Machine : Type := mkMachine {
  inst : State;
  pending : list Waiting;
  outcomes : list Outcome
}.

Definition with_inst (f : State -> State) (m : Machine) : Machine :=
  mkMachine (f (inst m)) (pending m) (outcomes m).

Definition suspend (w : Waiting) (m : Machine) : Machine :=
  mkMachine (inst m) (pending m ++ [w]) (outcomes m).

Definition settle (o : Outcome) (m : Machine) : Machine :=
  mkMachine (inst m) (pending m) (outcomes m ++ [o]).

Definition uri_matches (watched : option string) (u : string) : bool :=
  match watched with
  | Some w => String.eqb u w
  | None => false
  end.

Section TaskConfigurations.
Context {libs : Libraries}.

(** [getConfigFileUri]. *)
Definition getConfigFileUri (rootDir : string) : string :=
  uri_resolve (uri_resolve rootDir TASKFILEPATH) TASKFILE.

(** Lines 165-167. *)
Definition log_parse_errors (u : option string) (errors : list ParseError.t) (s : State) : State :=
  fold_left
    (fun s e => emit (LoggerError (MsgParse u (ParseError.error e) (ParseError.length e)
                                            (ParseError.offset e))) s)
    errors s.

(** readTasks, lines 160-170, inside the [try]: what it returns
    ([None] is falling off the end, i.e. [undefined]) or throws. *)
Definition readTasks_parse (u : option string) (content : string) (s : State)
  : State * Settled (option (list Value)) :=
  let strippedContent := stripComments content in
  let (tasks, errors) := parse strippedContent in
  match errors with
  | _ :: _ => (log_parse_errors u errors s, Fulfilled None)
  | [] =>
      match get_prop tasks "tasks" with
      | Rejected e => (s, Rejected e)
      | Fulfilled v =>
          match filterDuplicates v s with
          | (s', Fulfilled filtered) => (s', Fulfilled (Some filtered))
          | (s', Rejected e) => (s', Rejected e)
          end
      end
  end.

(** readTasks resumed at line 158 with the settled [resolveContent];
    the [catch] of line 171 turns every throw into a log line. *)
Definition readTasks_content (u : option string) (r : Settled string) (s : State)
  : State * option (list Value) :=
  match r with
  | Rejected _ => (emit (LoggerError (MsgRead u)) s, None)
  | Fulfilled content =>
      match readTasks_parse u content s with
      | (s', Fulfilled result) => (s', result)
      | (s', Rejected _) => (emit (LoggerError (MsgRead u)) s', None)
      end
  end.

(** The loop of lines 146-148. *)
Fixpoint set_all (tasks : list Value) (m : TaskMap) : TaskMap * Settled unit :=
  match tasks with
  | [] => (m, Fulfilled tt)
  | task :: rest =>
      match get_prop task "label" with
      | Rejected e => (m, Rejected e)
      | Fulfilled l => set_all rest (map_set l task m)
      end
  end.

(** refreshTasks resumed at line 138 with the settled [readTasks]; an
    array, even an empty one, is truthy. *)
Definition refreshTasks_resume (r : Settled (option (list Value))) (s : State)
  : State * Settled unit :=
  match r with
  | Rejected e => (s, Rejected e)
  | Fulfilled None => (s, Fulfilled tt)
  | Fulfilled (Some tasksOptionsArray) =>
      let cleared := set_tasksMap [] s in
      let (m, r') := set_all tasksOptionsArray (tasksMap cleared) in
      (set_tasksMap m cleared, r')
  end.

(** A call [this.refreshTasks()]: it runs up to the first [await], the
    [exists] call of readTasks, and nobody awaits its promise. *)
Definition refreshTasks (m : Machine) : Machine :=
  suspend (ReadTasksExists (watchedConfigFileUri (inst m))) m.

(** onDidTaskFileChange. *)
Definition onDidTaskFileChange (fileChange : FileChange) (m : Machine) : Machine :=
  match type fileChange with
  | DELETED => with_inst (set_tasksMap []) m
  | _ => refreshTasks m
  end.

(** onDidFilesChanged up to the [await] of line 54. *)
Definition onDidFilesChanged (changes : list FileChange) (m : Machine)
  : Machine * list Microtask :=
  match find (fun change => uri_matches (watchedConfigFileUri (inst m)) (uri change)) changes with
  | Some watchedConfigFileChange =>
      (onDidTaskFileChange watchedConfigFileChange m, [ResumeHandler])
  | None => (m, [])
  end.

(** onDidFilesChanged from line 55 on, with the [catch] of line 59. *)
Definition onDidFilesChanged_resume (s : State) : State :=
  match client s with
  | Some c =>
      let labels := getTaskLabels s in
      let s' := emit (TaskConfigurationChanged labels) s in
      match c labels with
      | None => s'
      | Some err => emit (LoggerError (MsgCaught err)) s'
      end
  | None => s
  end.

(** watchConfigurationFile up to its first [await]. *)
Definition watchConfigurationFile (rootUri : string) (m : Machine) : Machine :=
  let configFile := getConfigFileUri rootUri in
  if uri_matches (watchedConfigFileUri (inst m)) configFile
  then suspend (WatchExists rootUri configFile) m
  else suspend (WatchRegister rootUri configFile)
         (with_inst (fun s => emit (WatchFileChanges configFile) (set_watched configFile s)) m).

(** watchConfigurationFile resumed at line 87. *)
Definition watchConfigurationFile_registered (rootUri configFile : string)
  (r : Settled nat) (m : Machine) : Machine :=
  match r with
  | Rejected e => settle (WatchConfigurationFileSettled rootUri (Rejected e)) m
  | Fulfilled watchId =>
      suspend (WatchExists rootUri configFile)
        (refreshTasks (with_inst (push_disposable (DUnwatch watchId)) m))
  end.

(** watchConfigurationFile resumed at line 93. *)
Definition watchConfigurationFile_exists (rootUri configFile : string)
  (r : Settled bool) (m : Machine) : Machine :=
  match r with
  | Rejected e => settle (WatchConfigurationFileSettled rootUri (Rejected e)) m
  | Fulfilled true => settle (WatchConfigurationFileSettled rootUri (Fulfilled true)) m
  | Fulfilled false =>
      settle (WatchConfigurationFileSettled rootUri (Fulfilled false))
        (with_inst (emit (LoggerWarn (MsgMissing TASKFILE rootUri))) m)
  end.

(** readTasks resumed at line 154. *)
Definition readTasks_exists (u : option string) (r : Settled bool) (m : Machine)
  : Machine * list Microtask :=
  match r with
  | Rejected e => (m, [ResumeRefresh (Rejected e)])
  | Fulfilled false => (m, [ResumeRefresh (Fulfilled None)])
  | Fulfilled true => (suspend (ReadTasksContent u) m, [])
  end.

Definition run_disposable (d : Disposable) (s : State) : State :=
  match d with
  | DWatcherServer => emit WatcherServerDispose s
  | DClear => set_client None (set_tasksMap [] s)
  | DUnwatch watchId => emit (UnwatchFileChanges watchId) s
  end.

(** Modelled from the spec: [DisposableCollection.dispose] (theia core)
    is not under src/.  dispose "releases the watch registration, clears
    the map, clears the client reference", in that order: every pushed
    disposable runs once, the last pushed first, and the collection is
    left empty, so that a second call does nothing. *)
Definition dispose (s : State) : State :=
  let s' := fold_left (fun s d => run_disposable d s) (rev (toDispose s)) s in
  mkState (tasksMap s') (watchedConfigFileUri s') (client s') [] (effects s').

(* ------------------------------------------------------------------ *)
(** ** The event loop *)

(** JavaScript runs one message to completion before the next: the
    synchronous code, then the microtasks queued meanwhile.  The file
    system and the watcher server are remote services, so a request to
    them settles in a later turn of its own, in any order; a promise of
    an [async] function of the class that is already settled when it is
    awaited resumes its awaiter as a microtask of the same turn. *)

Inductive Payload : Type :=
| PBool (b : bool)
| PContent (content : string)
| PWatchId (watchId : nat).

(** One message to the instance: a call of its public interface, a batch
    from the watcher server, or the settling of the [i]-th outstanding
    request. *)
Inductive Event : Type :=
| CallSetClient (c : TaskConfigurationClient)
| CallWatchConfigurationFile (rootUri : string)
| CallDispose
| FilesChanged (changes : list FileChange)
| Settle (i : nat) (r : Settled Payload).

Fixpoint take_nth {A : Type} (i : nat) (l : list A) : option (A * list A) :=
  match l, i with
  | [], _ => None
  | x :: rest, O => Some (x, rest)
  | x :: rest, S j =>
      match take_nth j rest with
      | Some (y, rest') => Some (y, x :: rest')
      | None => None
      end
  end.

(** Resuming a suspended activation; [None] when the payload is not of
    the kind its request yields. *)
Definition resume (w : Waiting) (r : Settled Payload) (m : Machine)
  : option (Machine * list Microtask) :=
  match w, r with
  | ReadTasksExists u, Fulfilled (PBool b) => Some (readTasks_exists u (Fulfilled b) m)
  | ReadTasksExists u, Rejected e => Some (readTasks_exists u (Rejected e) m)
  | ReadTasksContent u, Fulfilled (PContent c) =>
      let (s', result) := readTasks_content u (Fulfilled c) (inst m) in
      Some (with_inst (fun _ => s') m, [ResumeRefresh (Fulfilled result)])
  | ReadTasksContent u, Rejected e =>
      let (s', result) := readTasks_content u (Rejected e) (inst m) in
      Some (with_inst (fun _ => s') m, [ResumeRefresh (Fulfilled result)])
  | WatchRegister rootUri configFile, Fulfilled (PWatchId n) =>
      Some (watchConfigurationFile_registered rootUri configFile (Fulfilled n) m, [])
  | WatchRegister rootUri configFile, Rejected e =>
      Some (watchConfigurationFile_registered rootUri configFile (Rejected e) m, [])
  | WatchExists rootUri configFile, Fulfilled (PBool b) =>
      Some (watchConfigurationFile_exists rootUri configFile (Fulfilled b) m, [])
  | WatchExists rootUri configFile, Rejected e =>
      Some (watchConfigurationFile_exists rootUri configFile (Rejected e) m, [])
  | _, _ => None
  end.

(** The synchronous part of a turn. *)
Definition dispatch (e : Event) (m : Machine) : option (Machine * list Microtask) :=
  match e with
  | CallSetClient c => Some (with_inst (set_client (Some c)) m, [])
  | CallWatchConfigurationFile rootUri => Some (watchConfigurationFile rootUri m, [])
  | CallDispose => Some (with_inst dispose m, [])
  | FilesChanged changes => Some (onDidFilesChanged changes m)
  | Settle i r =>
      match take_nth i (pending m) with
      | Some (w, others) => resume w r (mkMachine (inst m) others (outcomes m))
      | None => None
      end
  end.

Definition run_microtask (m : Machine) (t : Microtask) : Machine :=
  match t with
  | ResumeRefresh r =>
      let (s', result) := refreshTasks_resume r (inst m) in
      settle (RefreshTasksSettled result) (with_inst (fun _ => s') m)
  | ResumeHandler => with_inst onDidFilesChanged_resume m
  end.

(** One turn: the synchronous part, then the microtasks it queued. *)
Definition turn (e : Event) (m : Machine) : option Machine :=
  match dispatch e m with
  | Some (m', queue) => Some (fold_left run_microtask queue m')
  | None => None
  end.

Fixpoint exec (events : list Event) (m : Machine) : option Machine :=
  match events with
  | [] => Some m
  | e :: rest =>
      match turn e m with
      | Some m' => exec rest m'
      | None => None
      end
  end.

Definition new_machine : Machine := mkMachine new_instance [] [].

End TaskConfigurations.

(* ------------------------------------------------------------------ *)
(** ** Specification-side definitions *)

(** A value whose properties can be read. *)
Definition indexable (v : Value) : bool :=
  match v with
  | VUndefined | VNull => false
  | _ => true
  end.

(** The label of a task, [undefined] where there is none. *)
Definition label_of (task : Value) : Value :=
  match get_prop task "label" with
  | Fulfilled l => l
  | Rejected _ => VUndefined
  end.

Definition same_label (t task : Value) : bool :=
  strict_eq (label_of t) (label_of task).

(** Duplicate filtering as the specification words it: walking the
    sequence with everything seen so far, a task survives when its label
    did not occur at an earlier position. *)
Fixpoint first_occurrences (earlier tasks : list Value) : list Value :=
  match tasks with
  | [] => []
  | task :: rest =>
      if existsb (fun t => same_label t task) earlier
      then first_occurrences (earlier ++ [task]) rest
      else task :: first_occurrences (earlier ++ [task]) rest
  end.

(** The later occurrences, which the specification drops. *)
Fixpoint later_occurrences (earlier tasks : list Value) : list Value :=
  match tasks with
  | [] => []
  | task :: rest =>
      if existsb (fun t => same_label t task) earlier
      then task :: later_occurrences (earlier ++ [task]) rest
      else later_occurrences (earlier ++ [task]) rest
  end.

Definition emit_all (es : list Effect) (s : State) : State :=
  mkState (tasksMap s) (watchedConfigFileUri s) (client s) (toDispose s) (effects s ++ es).

Definition duplicate_error (task : Value) : Effect :=
  LoggerError (MsgDuplicate TASKFILE (label_of task)).

Definition parse_error (u : option string) (e : ParseError.t) : Effect :=
  LoggerError (MsgParse u (ParseError.error e) (ParseError.length e) (ParseError.offset e)).

(** Each key of the map is the label of the task stored under it. *)
Definition keyed_by_label (m : TaskMap) : Prop :=
  Forall (fun entry => get_prop (snd entry) "label" = Fulfilled (fst entry)) m.


(** A task definition: an object whose ["label"] is a string. *)
Definition is_task (v : Value) : bool :=
  match v with
  | VObj fields => match lookup_field "label" fields with VStr _ => true | _ => false end
  | _ => false
  end.


(** The pull interface answers the same on both states. *)
Definition same_answers (before after : State) : Prop :=
  tasksMap after = tasksMap before
  /\ getTaskLabels after = getTaskLabels before
  /\ forall l, getTask l after = getTask l before.

(** The instance once the registration of a root switch is fulfilled. *)
Definition registered (s : State) (configFile : string) (watchId : nat) : State :=
  mkState (tasksMap s) (Some configFile) (client s)
    (toDispose s ++ [DUnwatch watchId])%list
    (effects s ++ [WatchFileChanges configFile])%list.

(** The instance once the existence check of line 93 answered [b]. *)
Definition warned (rootUri : string) (b : bool) (s : State) : State :=
  if b then s else emit (LoggerWarn (MsgMissing TASKFILE rootUri)) s.

(** [c] is the first change of the batch on the watched path. *)
Definition first_watched_change (watched : option string) (changes : list FileChange)
  (c : FileChange) : Prop :=
  exists before after,
    changes = (before ++ c :: after)%list
    /\ Forall (fun x => uri_matches watched (uri x) = false) before
    /\ uri_matches watched (uri c) = true.

(** The instance once the client was called with [labels]. *)
Definition notified (c : TaskConfigurationClient) (labels : list Value) (s : State) : State :=
  match c labels with
  | None => emit (TaskConfigurationChanged labels) s
  | Some err => emit (LoggerError (MsgCaught err)) (emit (TaskConfigurationChanged labels) s)
  end.

(* ------------------------------------------------------------------ *)
(** ** A concrete environment for the examples *)

Definition dq : string := String (ascii_of_nat 34) EmptyString.
Definition quoted (s : string) : string := dq ++ s ++ dq.

Definition task (l : string) : Value := VObj [("label", VStr l)].

(** [{"tasks":[{"label":"a"}]}] and the like. *)
Definition tasks_text (body : string) : string :=
  "{" ++ quoted "tasks" ++ ":" ++ body ++ "}".
Definition label_text (l : string) : string :=
  "{" ++ quoted "label" ++ ":" ++ quoted l ++ "}".

Definition text_b : string := tasks_text ("[" ++ label_text "b" ++ "]").
Definition text_7 : string := tasks_text "[7]".
Definition text_null : string := tasks_text "[null]".
Definition text_no_tasks : string := "{}".
Definition text_broken : string := "{" ++ quoted "tasks" ++ ":[".

(** A stand-in for the parser: a table on the texts above; the error
    codes and offsets of the entries with errors are placeholders. *)
Definition demo_parse (text : string) : Value * list ParseError.t :=
  if String.eqb text text_b then (VObj [("tasks", VArr [task "b"])], [])
  else if String.eqb text text_7 then (VObj [("tasks", VArr [VNum 7])], [])
  else if String.eqb text text_null then (VObj [("tasks", VArr [VNull])], [])
  else if String.eqb text text_no_tasks then (VObj [], [])
  else if String.eqb text text_broken
       then (VObj [("tasks", VArr [])], [ParseError.mk 4 10 0; ParseError.mk 7 10 0])
  else (VUndefined, [ParseError.mk 4 0 0]).

#[local] Instance demo : Libraries := {|
  uri_resolve := fun base segment => base ++ "/" ++ segment;
  stripComments := fun content => content;
  parse := demo_parse
|}.

Definition silent_client : TaskConfigurationClient := fun _ => None.

(** An instance watching [/ws/.theia/tasks.json], holding task ["a"],
    with a client registered and no request outstanding. *)
Definition watching_a : Machine :=
  mkMachine
    (mkState [(VStr "a", task "a")] (Some "/ws/.theia/tasks.json") (Some silent_client)
       [DWatcherServer; DClear; DUnwatch 1] [WatchFileChanges "/ws/.theia/tasks.json"])
    [] [].

(* ------------------------------------------------------------------ *)
(** ** Definitions for the further properties *)

(** [k] is the label of [t]. *)
Definition has_label (k t : Value) : bool :=
  strict_eq (label_of t) k.

(** No task of [tasks] has the label of a task of [earlier] or of a task
    before it in [tasks]. *)
Fixpoint fresh_labels (earlier tasks : list Value) : bool :=
  match tasks with
  | [] => true
  | x :: rest =>
      negb (existsb (fun t => same_label t x) earlier)
      && fresh_labels (earlier ++ [x])%list rest
  end.

Definition distinct_labels (tasks : list Value) : bool :=
  fresh_labels [] tasks.

(** One entry per task, under its label, in order. *)
Definition keyed (tasks : list Value) : TaskMap :=
  map (fun t => (label_of t, t)) tasks.

(** The instance once a refresh has read the array [tasks]: one error
    per later occurrence of a label, then the map replaced by the first
    occurrences. *)
Definition refreshed (tasks : list Value) (s : State) : State :=
  set_tasksMap (keyed (first_occurrences [] tasks))
    (emit_all (map duplicate_error (later_occurrences [] tasks)) s).

Definition is_notification (e : Effect) : bool :=
  match e with
  | TaskConfigurationChanged _ => true
  | _ => false
  end.

(** The calls made on the client so far. *)
Definition notifications (s : State) : list Effect :=
  filter is_notification (effects s).

Definition is_files_changed (e : Event) : bool :=
  match e with
  | FilesChanged _ => true
  | _ => false
  end.

(** What running a disposable asks of the watcher server. *)
Definition disposal_effect (d : Disposable) : list Effect :=
  match d with
  | DWatcherServer => [WatcherServerDispose]
  | DClear => []
  | DUnwatch watchId => [UnwatchFileChanges watchId]
  end.

Definition build : Value :=
  VObj [("label", VStr "build"); ("command", VStr "make")].
Definition build_again : Value :=
  VObj [("label", VStr "build"); ("command", VStr "ninja")].

Definition object_text (l command : string) : string :=
  "{" ++ quoted "label" ++ ":" ++ quoted l ++ ","
      ++ quoted "command" ++ ":" ++ quoted command ++ "}".

(** [{"tasks":[{"label":"build","command":"make"},{"label":"test"},
    {"label":"build","command":"ninja"}]}]. *)
Definition text_builds : string :=
  tasks_text ("[" ++ object_text "build" "make" ++ "," ++ label_text "test" ++ ","
                  ++ object_text "build" "ninja" ++ "]").

(** [{"tasks":[{"label":"a"},null]}]. *)
Definition text_a_null : string :=
  tasks_text ("[" ++ label_text "a" ++ ",null]").

(** A second table of parser answers, for the examples below. *)
Definition more_parse (text : string) : Value * list ParseError.t :=
  if String.eqb text text_builds
  then (VObj [("tasks", VArr [build; task "test"; build_again])], [])
  else if String.eqb text text_a_null
  then (VObj [("tasks", VArr [task "a"; VNull])], [])
  else demo_parse text.

Definition more_libs : Libraries := {|
  uri_resolve := fun base segment => base ++ "/" ++ segment;
  stripComments := fun content => content;
  parse := more_parse
|}.

(** A new instance after watchConfigurationFile was called for [/a] and,
    before that registration was answered, for [/b]. *)
Definition two_switches : Machine :=
  mkMachine
    (mkState [] (Some "/b/.theia/tasks.json") None [DWatcherServer; DClear]
       [WatchFileChanges "/a/.theia/tasks.json"; WatchFileChanges "/b/.theia/tasks.json"])
    [WatchRegister "/a" "/a/.theia/tasks.json"; WatchRegister "/b" "/b/.theia/tasks.json"]
    [].

Definition failing_client : TaskConfigurationClient :=
  fun _ => Some (Failure "client failed").

(* ------------------------------------------------------------------ *)
(** ** Duplicate filtering *)

Open Scope list_scope.

Lemma strict_eq_true (a b : Value) : strict_eq a b = true -> a = b.
Proof.
  destruct a, b; simpl; try discriminate; intros E; try reflexivity.
  - apply Bool.eqb_prop in E. now subst.
  - apply Z.eqb_eq in E. now subst.
  - apply String.eqb_eq in E. now subst.
Qed.

Lemma get_prop_indexable (v : Value) :
  indexable v = true -> get_prop v "label" = Fulfilled (label_of v).
Proof.
  unfold label_of. destruct v; simpl; try discriminate; reflexivity.
Qed.

Lemma some_same_label_existsb (acc : list Value) (x : Value) :
  Forall (fun v => indexable v = true) acc ->
  indexable x = true ->
  some_same_label acc x = Fulfilled (existsb (fun t => same_label t x) acc).
Proof.
  intros Hacc Hx. induction Hacc as [|t rest Ht _ IH]; simpl.
  - reflexivity.
  - rewrite (get_prop_indexable t Ht), (get_prop_indexable x Hx).
    unfold same_label at 1. destruct (strict_eq (label_of t) (label_of x)); simpl.
    + reflexivity.
    + exact IH.
Qed.

Lemma same_label_congr (t x y : Value) :
  same_label t x = true -> same_label t y = same_label x y.
Proof.
  unfold same_label. intros E. apply strict_eq_true in E. now rewrite E.
Qed.

Lemma emit_emit_all (e : Effect) (es : list Effect) (s : State) :
  emit_all es (emit e s) = emit_all (e :: es) s.
Proof.
  unfold emit_all, emit. simpl. now rewrite <- app_assoc.
Qed.

Lemma emit_all_nil (s : State) : emit_all [] s = s.
Proof.
  unfold emit_all. rewrite app_nil_r. now destruct s.
Qed.

Lemma filter_loop_spec (tasks : list Value) :
  forall (acc earlier : list Value) (s : State),
    Forall (fun v => indexable v = true) tasks ->
    Forall (fun v => indexable v = true) acc ->
    (forall x, existsb (fun t => same_label t x) acc
               = existsb (fun t => same_label t x) earlier) ->
    filter_loop tasks acc s
    = (emit_all (map duplicate_error (later_occurrences earlier tasks)) s,
       Fulfilled (acc ++ first_occurrences earlier tasks)).
Proof.
  induction tasks as [|x rest IH]; intros acc earlier s Htasks Hacc Hcover.
  - simpl. now rewrite emit_all_nil, app_nil_r.
  - inversion Htasks as [|? ? Hx Hrest]; subst. simpl.
    rewrite (some_same_label_existsb acc x Hacc Hx), Hcover.
    destruct (existsb (fun t => same_label t x) earlier) eqn:Hdup.
    + rewrite (get_prop_indexable x Hx).
      rewrite (IH acc (earlier ++ [x]) _ Hrest Hacc).
      * simpl. now rewrite emit_emit_all.
      * intros y. rewrite existsb_app, Hcover. simpl. rewrite orb_false_r.
        destruct (same_label x y) eqn:Hxy; [|now rewrite orb_false_r].
        rewrite orb_true_r. apply existsb_exists in Hdup as [t [Hin Ht]].
        apply existsb_exists. exists t. split; [exact Hin|].
        now rewrite (same_label_congr t x y Ht).
    + rewrite (IH (acc ++ [x]) (earlier ++ [x]) s Hrest).
      * now rewrite <- app_assoc.
      * apply Forall_app. split; [exact Hacc|]. now constructor.
      * intros y. now rewrite !existsb_app, Hcover.
Qed.

(** C3: on every sequence of tasks (values whose label can be read),
    filterDuplicates returns the tasks whose label did not occur at an
    earlier position, in their original order, and logs one
    duplicate-label error, naming the label, for each dropped later
    occurrence and nothing else; on the labels a, b, a it returns the
    tasks a, b and logs exactly one error. *)
Theorem filterDuplicates_first_wins :
  (forall (tasks : list Value) (s : State),
      Forall (fun v => indexable v = true) tasks ->
      filterDuplicates (VArr tasks) s
      = (emit_all (map duplicate_error (later_occurrences [] tasks)) s,
         Fulfilled (first_occurrences [] tasks)))
  /\ (forall s : State,
         filterDuplicates (VArr [task "a"; task "b"; task "a"]) s
         = (emit (LoggerError (MsgDuplicate TASKFILE (VStr "a"))) s,
            Fulfilled [task "a"; task "b"])).
Proof.
  split.
  - intros tasks s Htasks. unfold filterDuplicates. simpl.
    rewrite (filter_loop_spec tasks [] [] s Htasks); auto.
  - intros s. reflexivity.
Qed.

Lemma filterDuplicates_first_wins_witness :
  Forall (fun v => indexable v = true) [task "x"; task "x"; VNum 3]
  /\ filterDuplicates (VArr [task "x"; task "x"; VNum 3]) new_instance
     = (emit_all [duplicate_error (task "x")] new_instance,
        Fulfilled [task "x"; VNum 3]).
Proof.
  split.
  - repeat constructor.
  - apply (proj1 filterDuplicates_first_wins [task "x"; task "x"; VNum 3] new_instance).
    repeat constructor.
Defined.

(* ------------------------------------------------------------------ *)
(** ** Refresh *)

Lemma take_nth_app_length {A : Type} (before : list A) (x : A) (after : list A) :
  take_nth (List.length before) (before ++ x :: after) = Some (x, before ++ after).
Proof.
  induction before as [|y before IH]; simpl.
  - reflexivity.
  - now rewrite IH.
Qed.

Lemma take_nth_last {A : Type} (before : list A) (x : A) :
  take_nth (List.length before) (before ++ [x]) = Some (x, before).
Proof.
  rewrite take_nth_app_length. now rewrite app_nil_r.
Qed.

Lemma same_answers_refl (s : State) : same_answers s s.
Proof. repeat split. Qed.

Lemma same_answers_of_map (s s' : State) :
  tasksMap s' = tasksMap s -> same_answers s s'.
Proof.
  intros E. unfold same_answers, getTaskLabels, getTask. rewrite E. repeat split.
Qed.

Section Refresh.
Context {libs : Libraries}.

Lemma log_parse_errors_emit_all (u : option string) (errors : list ParseError.t) :
  forall s, log_parse_errors u errors s = emit_all (map (parse_error u) errors) s.
Proof.
  unfold log_parse_errors. induction errors as [|e errors IH]; intros s; simpl.
  - now rewrite emit_all_nil.
  - rewrite IH. apply emit_emit_all.
Qed.


(** The turn in which the [resolveContent] call of a refresh settles
    without yielding an array. *)
Lemma refresh_content_turn (m : Machine) (u : option string) (r : Settled Payload)
  (r' : Settled string) (s' : State) :
  match r with
  | Rejected e => r' = Rejected e
  | Fulfilled (PContent c) => r' = Fulfilled c
  | _ => False
  end ->
  readTasks_content u r' (inst m) = (s', None) ->
  turn (Settle (List.length (pending m)) r) (suspend (ReadTasksContent u) m)
  = Some (mkMachine s' (pending m) (outcomes m ++ [RefreshTasksSettled (Fulfilled tt)])).
Proof.
  intros Hr Hread. unfold turn, dispatch, suspend. cbn [pending inst outcomes].
  rewrite take_nth_last. destruct m as [s p o]. cbn [inst] in Hread.
  destruct r as [[b|c|n]|e]; try contradiction; subst r'; cbn [resume inst];
    rewrite Hread; reflexivity.
Qed.


End Refresh.


(* ------------------------------------------------------------------ *)
(** ** watchConfigurationFile *)

Lemma take_nth_last_but_one {A : Type} (before : list A) (x y : A) :
  take_nth (List.length before) (before ++ [x; y]) = Some (x, before ++ [y]).
Proof. apply take_nth_app_length. Qed.

Lemma take_nth_last_of_two {A : Type} (before : list A) (x y : A) :
  take_nth (S (List.length before)) (before ++ [x; y]) = Some (y, before ++ [x]).
Proof.
  replace (S (List.length before)) with (List.length (before ++ [x])).
  - replace (before ++ [x; y]) with ((before ++ [x]) ++ [y]).
    + apply take_nth_last.
    + now rewrite <- app_assoc.
  - rewrite length_app. simpl. lia.
Qed.

Lemma uri_matches_same (u : string) : uri_matches (Some u) u = true.
Proof. simpl. apply String.eqb_refl. Qed.

Section Watch.
Context {libs : Libraries}.

Lemma switch_turns (m : Machine) (rootUri : string) (watchId : nat) :
  uri_matches (watchedConfigFileUri (inst m)) (getConfigFileUri rootUri) = false ->
  exec [CallWatchConfigurationFile rootUri;
        Settle (List.length (pending m)) (Fulfilled (PWatchId watchId))] m
  = Some (mkMachine (registered (inst m) (getConfigFileUri rootUri) watchId)
            (pending m ++ [ReadTasksExists (Some (getConfigFileUri rootUri));
                           WatchExists rootUri (getConfigFileUri rootUri)])
            (outcomes m)).
Proof.
  intros Hdiff. destruct m as [s p o]. cbn [inst pending outcomes] in *.
  unfold exec, turn at 1, dispatch, watchConfigurationFile. cbn [inst].
  rewrite Hdiff. unfold suspend, with_inst. cbn [fold_left inst pending outcomes].
  unfold turn, dispatch. cbn [pending inst outcomes]. rewrite take_nth_last.
  unfold resume, watchConfigurationFile_registered, refreshTasks, suspend, with_inst,
    push_disposable, emit, set_watched, registered.
  cbn [fold_left inst pending outcomes tasksMap watchedConfigFileUri client toDispose effects].
  now rewrite <- app_assoc.
Qed.

Lemma exec_app (events later : list Event) (m : Machine) :
  exec (events ++ later) m
  = match exec events m with Some m' => exec later m' | None => None end.
Proof.
  revert m. induction events as [|e events IH]; intros m; simpl.
  - reflexivity.
  - destruct (turn e m); [apply IH|reflexivity].
Qed.

Lemma watch_exists_turn (s : State) (before after : list Waiting) (o : list Outcome)
  (i : nat) (rootUri configFile : string) (b : bool) :
  take_nth i (before ++ WatchExists rootUri configFile :: after)
  = Some (WatchExists rootUri configFile, before ++ after) ->
  turn (Settle i (Fulfilled (PBool b)))
    (mkMachine s (before ++ WatchExists rootUri configFile :: after) o)
  = Some (mkMachine (warned rootUri b s) (before ++ after)
            (o ++ [WatchConfigurationFileSettled rootUri (Fulfilled b)])).
Proof.
  intros Htake. unfold turn, dispatch. cbn [pending inst outcomes]. rewrite Htake.
  now destruct b.
Qed.

Lemma refresh_missing_turn (s : State) (before after : list Waiting) (o : list Outcome)
  (i : nat) (u : option string) :
  take_nth i (before ++ ReadTasksExists u :: after)
  = Some (ReadTasksExists u, before ++ after) ->
  turn (Settle i (Fulfilled (PBool false)))
    (mkMachine s (before ++ ReadTasksExists u :: after) o)
  = Some (mkMachine s (before ++ after) (o ++ [RefreshTasksSettled (Fulfilled tt)])).
Proof.
  intros Htake. unfold turn, dispatch. cbn [pending inst outcomes]. now rewrite Htake.
Qed.

Lemma rewatch_turn (m : Machine) (rootUri : string) :
  uri_matches (watchedConfigFileUri (inst m)) (getConfigFileUri rootUri) = true ->
  turn (CallWatchConfigurationFile rootUri) m
  = Some (mkMachine (inst m)
            (pending m ++ [WatchExists rootUri (getConfigFileUri rootUri)]) (outcomes m)).
Proof.
  intros Hsame. unfold turn, dispatch, watchConfigurationFile. now rewrite Hsame.
Qed.

(** The turn in which the registration awaited at line 87 settles,
    in whatever machine it is still outstanding. *)
Lemma registration_turn (later : Machine) (i : nat) (rootUri configFile : string)
  (others : list Waiting) :
  take_nth i (pending later) = Some (WatchRegister rootUri configFile, others) ->
  (forall watchId : nat,
      turn (Settle i (Fulfilled (PWatchId watchId))) later
      = Some (mkMachine (push_disposable (DUnwatch watchId) (inst later))
                (others ++ [ReadTasksExists (watchedConfigFileUri (inst later));
                            WatchExists rootUri configFile])
                (outcomes later)))
  /\ (forall e : Err,
         turn (Settle i (Rejected e)) later
         = Some (mkMachine (inst later) others
                   (outcomes later
                    ++ [WatchConfigurationFileSettled rootUri (Rejected e)]))).
Proof.
  intros Htake. split.
  - intros watchId. unfold turn, dispatch. rewrite Htake.
    unfold resume, watchConfigurationFile_registered, refreshTasks, suspend, with_inst,
      push_disposable.
    cbn [fold_left inst pending outcomes watchedConfigFileUri].
    now rewrite <- app_assoc.
  - intros e. unfold turn, dispatch. now rewrite Htake.
Qed.

(** The turn in which the existence check awaited at line 93 settles. *)
Lemma existence_turn (later : Machine) (i : nat) (rootUri configFile : string)
  (others : list Waiting) :
  take_nth i (pending later) = Some (WatchExists rootUri configFile, others) ->
  (forall b : bool,
      turn (Settle i (Fulfilled (PBool b))) later
      = Some (mkMachine (warned rootUri b (inst later)) others
                (outcomes later
                 ++ [WatchConfigurationFileSettled rootUri (Fulfilled b)])))
  /\ (forall e : Err,
         turn (Settle i (Rejected e)) later
         = Some (mkMachine (inst later) others
                   (outcomes later
                    ++ [WatchConfigurationFileSettled rootUri (Rejected e)]))).
Proof.
  intros Htake. split.
  - intros b. unfold turn, dispatch. rewrite Htake. now destruct b.
  - intros e. unfold turn, dispatch. now rewrite Htake.
Qed.

(** The turn in which the existence check of a refresh answers that the
    file is missing. *)
Lemma refresh_missing_anywhere (later : Machine) (i : nat) (u : option string)
  (others : list Waiting) :
  take_nth i (pending later) = Some (ReadTasksExists u, others) ->
  turn (Settle i (Fulfilled (PBool false))) later
  = Some (mkMachine (inst later) others
            (outcomes later ++ [RefreshTasksSettled (Fulfilled tt)])).
Proof.
  intros Htake. unfold turn, dispatch. now rewrite Htake.
Qed.

(** C2, amended: a call of watchConfigurationFile whose computed path
    differs from the watched one records the new path as watched and
    asks the watcher server for a watch on it; no earlier registration is
    unregistered (its [unwatchFileChanges] stays queued in [toDispose]
    for dispose).  In whatever state the registration is fulfilled, its
    own unwatch is queued and exactly one refresh is started, next to the
    existence check of the call; the refresh reads the path watched at
    that moment, which is the new path when the registration is answered
    before any other call switches the root.  When the registration is
    rejected, no refresh is started and the call rejects. *)
Theorem root_switch_registers_and_refreshes (m : Machine) (rootUri : string) :
  uri_matches (watchedConfigFileUri (inst m)) (getConfigFileUri rootUri) = false ->
  let configFile := getConfigFileUri rootUri in
  turn (CallWatchConfigurationFile rootUri) m
  = Some (mkMachine
            (mkState (tasksMap (inst m)) (Some configFile) (client (inst m))
               (toDispose (inst m)) (effects (inst m) ++ [WatchFileChanges configFile]))
            (pending m ++ [WatchRegister rootUri configFile]) (outcomes m))
  /\ (forall (later : Machine) (i : nat) (others : list Waiting),
         take_nth i (pending later) = Some (WatchRegister rootUri configFile, others) ->
         (forall watchId : nat,
             turn (Settle i (Fulfilled (PWatchId watchId))) later
             = Some (mkMachine
                       (mkState (tasksMap (inst later)) (watchedConfigFileUri (inst later))
                          (client (inst later))
                          (toDispose (inst later) ++ [DUnwatch watchId])
                          (effects (inst later)))
                       (others ++ [ReadTasksExists (watchedConfigFileUri (inst later));
                                   WatchExists rootUri configFile])
                       (outcomes later)))
         /\ (forall e : Err,
                turn (Settle i (Rejected e)) later
                = Some (mkMachine (inst later) others
                          (outcomes later
                           ++ [WatchConfigurationFileSettled rootUri (Rejected e)]))))
  /\ (forall watchId : nat,
         exec [CallWatchConfigurationFile rootUri;
               Settle (List.length (pending m)) (Fulfilled (PWatchId watchId))] m
         = Some (mkMachine
                   (mkState (tasksMap (inst m)) (Some configFile) (client (inst m))
                      (toDispose (inst m) ++ [DUnwatch watchId])
                      (effects (inst m) ++ [WatchFileChanges configFile]))
                   (pending m ++ [ReadTasksExists (Some configFile);
                                  WatchExists rootUri configFile])
                   (outcomes m))).
Proof.
  intros Hdiff configFile. subst configFile. split; [|split].
  - unfold turn, dispatch, watchConfigurationFile. rewrite Hdiff. reflexivity.
  - intros later i others Htake.
    exact (registration_turn later i rootUri (getConfigFileUri rootUri) others Htake).
  - intros watchId. apply (switch_turns m rootUri watchId Hdiff).
Qed.

(** C7: a call of watchConfigurationFile leaves its computed path as the
    watched one, and a further call with the same root, finding that path
    watched, asks for no watch registration and starts no refresh: it only
    checks that the file exists.  Map, watched path and queued
    disposables are as the first call left them; the call returns the
    answer of the check, after a warning when the file is missing. *)
Theorem rewatch_same_root (m : Machine) (rootUri : string) :
  (exists m1, turn (CallWatchConfigurationFile rootUri) m = Some m1
              /\ watchedConfigFileUri (inst m1) = Some (getConfigFileUri rootUri))
  /\ (watchedConfigFileUri (inst m) = Some (getConfigFileUri rootUri) ->
      turn (CallWatchConfigurationFile rootUri) m
      = Some (mkMachine (inst m)
                (pending m ++ [WatchExists rootUri (getConfigFileUri rootUri)]) (outcomes m))
      /\ forall b : bool,
          exec [CallWatchConfigurationFile rootUri;
                Settle (List.length (pending m)) (Fulfilled (PBool b))] m
          = Some (mkMachine
                    (if b then inst m
                     else emit (LoggerWarn (MsgMissing TASKFILE rootUri)) (inst m))
                    (pending m)
                    (outcomes m ++ [WatchConfigurationFileSettled rootUri (Fulfilled b)]))).
Proof.
  split.
  - unfold turn, dispatch, watchConfigurationFile.
    destruct (uri_matches (watchedConfigFileUri (inst m)) (getConfigFileUri rootUri)) eqn:E.
    + eexists. split; [reflexivity|]. cbn [fold_left suspend inst].
      destruct (watchedConfigFileUri (inst m)) as [w|]; simpl in E; [|discriminate].
      apply String.eqb_eq in E. now subst.
    + eexists. split; reflexivity.
  - intros Hwatched.
    assert (Hcall := rewatch_turn m rootUri).
    rewrite Hwatched, uri_matches_same in Hcall. specialize (Hcall eq_refl).
    split; [exact Hcall|]. intros b. unfold exec. rewrite Hcall.
    rewrite (watch_exists_turn (inst m) (pending m) [] (outcomes m)).
    + unfold warned. now rewrite app_nil_r.
    + apply take_nth_app_length.
Qed.

(** watchConfigurationFile run to its end with every request fulfilled
    and the refresh finding no file, the requests answered one after the
    other. *)
Lemma missing_file_schedules (m : Machine) (rootUri : string) (b : bool) :
  let configFile := getConfigFileUri rootUri in
  let i := List.length (pending m) in
  (uri_matches (watchedConfigFileUri (inst m)) configFile = true ->
   exec [CallWatchConfigurationFile rootUri; Settle i (Fulfilled (PBool b))] m
   = Some (mkMachine (warned rootUri b (inst m)) (pending m)
             (outcomes m ++ [WatchConfigurationFileSettled rootUri (Fulfilled b)])))
  /\ (uri_matches (watchedConfigFileUri (inst m)) configFile = false ->
      forall watchId : nat,
        exec [CallWatchConfigurationFile rootUri;
              Settle i (Fulfilled (PWatchId watchId));
              Settle i (Fulfilled (PBool false));
              Settle i (Fulfilled (PBool b))] m
        = Some (mkMachine (warned rootUri b (registered (inst m) configFile watchId))
                  (pending m)
                  (outcomes m ++ [RefreshTasksSettled (Fulfilled tt);
                                  WatchConfigurationFileSettled rootUri (Fulfilled b)]))
        /\ exec [CallWatchConfigurationFile rootUri;
                 Settle i (Fulfilled (PWatchId watchId));
                 Settle (S i) (Fulfilled (PBool b));
                 Settle i (Fulfilled (PBool false))] m
           = Some (mkMachine (warned rootUri b (registered (inst m) configFile watchId))
                     (pending m)
                     (outcomes m ++ [WatchConfigurationFileSettled rootUri (Fulfilled b);
                                     RefreshTasksSettled (Fulfilled tt)]))).
Proof.
  intros configFile i. subst configFile i. split.
  - intros Hsame. unfold exec. rewrite (rewatch_turn m rootUri Hsame).
    rewrite (watch_exists_turn (inst m) (pending m) [] (outcomes m)).
    + now rewrite app_nil_r.
    + apply take_nth_app_length.
  - intros Hdiff watchId.
    pose proof (switch_turns m rootUri watchId Hdiff) as Hswitch.
    split.
    + change [CallWatchConfigurationFile rootUri;
              Settle (List.length (pending m)) (Fulfilled (PWatchId watchId));
              Settle (List.length (pending m)) (Fulfilled (PBool false));
              Settle (List.length (pending m)) (Fulfilled (PBool b))]
        with ([CallWatchConfigurationFile rootUri;
               Settle (List.length (pending m)) (Fulfilled (PWatchId watchId))]
              ++ [Settle (List.length (pending m)) (Fulfilled (PBool false));
                  Settle (List.length (pending m)) (Fulfilled (PBool b))]).
      rewrite exec_app, Hswitch. unfold exec.
      rewrite refresh_missing_turn by apply take_nth_app_length.
      rewrite (watch_exists_turn _ (pending m) []) by apply take_nth_app_length.
      now rewrite app_nil_r, <- app_assoc.
    + change [CallWatchConfigurationFile rootUri;
              Settle (List.length (pending m)) (Fulfilled (PWatchId watchId));
              Settle (S (List.length (pending m))) (Fulfilled (PBool b));
              Settle (List.length (pending m)) (Fulfilled (PBool false))]
        with ([CallWatchConfigurationFile rootUri;
               Settle (List.length (pending m)) (Fulfilled (PWatchId watchId))]
              ++ [Settle (S (List.length (pending m))) (Fulfilled (PBool b));
                  Settle (List.length (pending m)) (Fulfilled (PBool false))]).
      rewrite exec_app, Hswitch. unfold exec.
      replace (pending m ++ [ReadTasksExists (Some (getConfigFileUri rootUri));
                             WatchExists rootUri (getConfigFileUri rootUri)])
        with ((pending m ++ [ReadTasksExists (Some (getConfigFileUri rootUri))])
              ++ [WatchExists rootUri (getConfigFileUri rootUri)])
        by now rewrite <- app_assoc.
      rewrite watch_exists_turn.
      * rewrite app_nil_r.
        rewrite (refresh_missing_turn _ (pending m) []) by apply take_nth_app_length.
        now rewrite app_nil_r, <- app_assoc.
      * rewrite app_nil_r, <- app_assoc. apply take_nth_last_of_two.
Qed.

(** C8, amended: watchConfigurationFile returns the answer of its
    existence check at the computed path, so false when the file does not
    exist, then after one warning, provided the watch registration
    (requested only when the path differs from the watched one) and the
    check are fulfilled; when either is rejected the call rejects, with
    no warning and no boolean.  No step of the call touches the task map.
    The refresh it starts on a root switch reads the path watched when
    the registration is fulfilled, and leaves the map untouched when that
    file does not exist; with the requests answered one after the other
    that is the computed path and the map is untouched, whichever
    existence check settles first. *)
Theorem missing_file_reports_false (rootUri : string) :
  let configFile := getConfigFileUri rootUri in
  (forall m : Machine,
      exists m1,
        turn (CallWatchConfigurationFile rootUri) m = Some m1
        /\ tasksMap (inst m1) = tasksMap (inst m)
        /\ outcomes m1 = outcomes m
        /\ pending m1
           = pending m
             ++ [if uri_matches (watchedConfigFileUri (inst m)) configFile
                 then WatchExists rootUri configFile
                 else WatchRegister rootUri configFile])
  /\ (forall (later : Machine) (i : nat) (others : list Waiting),
         take_nth i (pending later) = Some (WatchRegister rootUri configFile, others) ->
         (forall watchId : nat,
             turn (Settle i (Fulfilled (PWatchId watchId))) later
             = Some (mkMachine
                       (mkState (tasksMap (inst later)) (watchedConfigFileUri (inst later))
                          (client (inst later))
                          (toDispose (inst later) ++ [DUnwatch watchId])
                          (effects (inst later)))
                       (others ++ [ReadTasksExists (watchedConfigFileUri (inst later));
                                   WatchExists rootUri configFile])
                       (outcomes later)))
         /\ (forall e : Err,
                turn (Settle i (Rejected e)) later
                = Some (mkMachine (inst later) others
                          (outcomes later
                           ++ [WatchConfigurationFileSettled rootUri (Rejected e)]))))
  /\ (forall (later : Machine) (i : nat) (others : list Waiting),
         take_nth i (pending later) = Some (WatchExists rootUri configFile, others) ->
         (forall b : bool,
             turn (Settle i (Fulfilled (PBool b))) later
             = Some (mkMachine
                       (if b then inst later
                        else emit (LoggerWarn (MsgMissing TASKFILE rootUri)) (inst later))
                       others
                       (outcomes later
                        ++ [WatchConfigurationFileSettled rootUri (Fulfilled b)])))
         /\ (forall e : Err,
                turn (Settle i (Rejected e)) later
                = Some (mkMachine (inst later) others
                          (outcomes later
                           ++ [WatchConfigurationFileSettled rootUri (Rejected e)]))))
  /\ (forall (later : Machine) (i : nat) (u : option string) (others : list Waiting),
         take_nth i (pending later) = Some (ReadTasksExists u, others) ->
         turn (Settle i (Fulfilled (PBool false))) later
         = Some (mkMachine (inst later) others
                   (outcomes later ++ [RefreshTasksSettled (Fulfilled tt)])))
  /\ (forall (m : Machine) (b : bool),
         let i := List.length (pending m) in
         (uri_matches (watchedConfigFileUri (inst m)) configFile = true ->
          exec [CallWatchConfigurationFile rootUri; Settle i (Fulfilled (PBool b))] m
          = Some (mkMachine (warned rootUri b (inst m)) (pending m)
                    (outcomes m ++ [WatchConfigurationFileSettled rootUri (Fulfilled b)])))
         /\ (uri_matches (watchedConfigFileUri (inst m)) configFile = false ->
             forall watchId : nat,
               exec [CallWatchConfigurationFile rootUri;
                     Settle i (Fulfilled (PWatchId watchId));
                     Settle i (Fulfilled (PBool false));
                     Settle i (Fulfilled (PBool b))] m
               = Some (mkMachine
                         (warned rootUri b (registered (inst m) configFile watchId))
                         (pending m)
                         (outcomes m
                          ++ [RefreshTasksSettled (Fulfilled tt);
                              WatchConfigurationFileSettled rootUri (Fulfilled b)]))
               /\ exec [CallWatchConfigurationFile rootUri;
                        Settle i (Fulfilled (PWatchId watchId));
                        Settle (S i) (Fulfilled (PBool b));
                        Settle i (Fulfilled (PBool false))] m
                  = Some (mkMachine
                            (warned rootUri b (registered (inst m) configFile watchId))
                            (pending m)
                            (outcomes m
                             ++ [WatchConfigurationFileSettled rootUri (Fulfilled b);
                                 RefreshTasksSettled (Fulfilled tt)])))).
Proof.
  intros configFile. subst configFile. split; [|split; [|split; [|split]]].
  - intros m. unfold turn, dispatch, watchConfigurationFile.
    destruct (uri_matches (watchedConfigFileUri (inst m)) (getConfigFileUri rootUri));
      eexists; (split; [reflexivity|repeat split]).
  - intros later i others Htake.
    exact (registration_turn later i rootUri (getConfigFileUri rootUri) others Htake).
  - intros later i others Htake.
    exact (existence_turn later i rootUri (getConfigFileUri rootUri) others Htake).
  - intros later i u others Htake.
    exact (refresh_missing_anywhere later i u others Htake).
  - intros m b. exact (missing_file_schedules m rootUri b).
Qed.

End Watch.

Lemma root_switch_registers_and_refreshes_witness :
  uri_matches (watchedConfigFileUri (inst new_machine)) (getConfigFileUri "/a") = false
  /\ exec [CallWatchConfigurationFile "/a"; CallWatchConfigurationFile "/b"] new_machine
     = Some two_switches
  /\ take_nth 0 (pending two_switches)
     = Some (WatchRegister "/a" (getConfigFileUri "/a"),
             [WatchRegister "/b" "/b/.theia/tasks.json"])
  /\ turn (Settle 0 (Fulfilled (PWatchId 1))) two_switches
     = Some (mkMachine
               (mkState [] (Some "/b/.theia/tasks.json") None
                  [DWatcherServer; DClear; DUnwatch 1]
                  [WatchFileChanges "/a/.theia/tasks.json";
                   WatchFileChanges "/b/.theia/tasks.json"])
               [WatchRegister "/b" "/b/.theia/tasks.json";
                ReadTasksExists (Some "/b/.theia/tasks.json");
                WatchExists "/a" "/a/.theia/tasks.json"]
               [])
  /\ exec [CallWatchConfigurationFile "/a"; Settle 0 (Fulfilled (PWatchId 1))] new_machine
     = Some (mkMachine
               (mkState [] (Some "/a/.theia/tasks.json") None
                  [DWatcherServer; DClear; DUnwatch 1]
                  [WatchFileChanges "/a/.theia/tasks.json"])
               [ReadTasksExists (Some "/a/.theia/tasks.json");
                WatchExists "/a" "/a/.theia/tasks.json"]
               []).
Proof.
  pose proof (root_switch_registers_and_refreshes new_machine "/a" eq_refl)
    as [_ [Hsettle Hexec]].
  split; [reflexivity|]. split; [reflexivity|]. split; [reflexivity|]. split.
  - exact (proj1 (Hsettle two_switches 0 [WatchRegister "/b" "/b/.theia/tasks.json"]
                    eq_refl) 1).
  - exact (Hexec 1).
Defined.

(** C2 as stated fails: after watching [/ws] (registration 1) and then
    [/other] (registration 2), with every request answered, the watcher
    server was never asked to unwatch registration 1; its disposable is
    still queued. *)
Lemma root_switch_keeps_old_watch :
  exists m',
    exec [CallWatchConfigurationFile "/ws"; Settle 0 (Fulfilled (PWatchId 1));
          Settle 0 (Fulfilled (PBool false)); Settle 0 (Fulfilled (PBool false));
          CallWatchConfigurationFile "/other"; Settle 0 (Fulfilled (PWatchId 2));
          Settle 0 (Fulfilled (PBool false)); Settle 0 (Fulfilled (PBool false))]
      new_machine
    = Some m'
    /\ pending m' = []
    /\ effects (inst m')
       = [WatchFileChanges "/ws/.theia/tasks.json";
          LoggerWarn (MsgMissing "tasks.json" "/ws");
          WatchFileChanges "/other/.theia/tasks.json";
          LoggerWarn (MsgMissing "tasks.json" "/other")]
    /\ toDispose (inst m') = [DWatcherServer; DClear; DUnwatch 1; DUnwatch 2]
    /\ ~ In (UnwatchFileChanges 1) (effects (inst m')).
Proof.
  eexists. split; [vm_compute; reflexivity|]. cbn [inst pending effects toDispose].
  repeat split. intros H. simpl in H.
  repeat (destruct H as [H|H]; [discriminate|]). exact H.
Qed.

Lemma rewatch_same_root_witness :
  watchedConfigFileUri (inst watching_a) = Some (getConfigFileUri "/ws")
  /\ turn (CallWatchConfigurationFile "/ws") watching_a
     = Some (mkMachine (inst watching_a) [WatchExists "/ws" "/ws/.theia/tasks.json"] []).
Proof.
  split.
  - reflexivity.
  - exact (proj1 (proj2 (rewatch_same_root watching_a "/ws") eq_refl)).
Defined.

Lemma missing_file_reports_false_witness :
  (take_nth 0 (pending two_switches)
   = Some (WatchRegister "/a" (getConfigFileUri "/a"),
           [WatchRegister "/b" "/b/.theia/tasks.json"])
   /\ turn (Settle 0 (Rejected (Failure "watch failed"))) two_switches
      = Some (mkMachine (inst two_switches) [WatchRegister "/b" "/b/.theia/tasks.json"]
                [WatchConfigurationFileSettled "/a" (Rejected (Failure "watch failed"))]))
  /\ (take_nth 1 [ReadTasksExists (Some "/b/.theia/tasks.json");
                  WatchExists "/a" (getConfigFileUri "/a")]
      = Some (WatchExists "/a" (getConfigFileUri "/a"),
              [ReadTasksExists (Some "/b/.theia/tasks.json")])
      /\ turn (Settle 1 (Fulfilled (PBool false)))
           (mkMachine (inst watching_a)
              [ReadTasksExists (Some "/b/.theia/tasks.json");
               WatchExists "/a" (getConfigFileUri "/a")] [])
         = Some (mkMachine
                   (emit (LoggerWarn (MsgMissing "tasks.json" "/a")) (inst watching_a))
                   [ReadTasksExists (Some "/b/.theia/tasks.json")]
                   [WatchConfigurationFileSettled "/a" (Fulfilled false)]))
  /\ (take_nth 0 [ReadTasksExists (Some "/b/.theia/tasks.json")]
      = Some (ReadTasksExists (Some "/b/.theia/tasks.json"), [])
      /\ turn (Settle 0 (Fulfilled (PBool false)))
           (mkMachine (inst watching_a) [ReadTasksExists (Some "/b/.theia/tasks.json")] [])
         = Some (mkMachine (inst watching_a) [] [RefreshTasksSettled (Fulfilled tt)]))
  /\ (uri_matches (watchedConfigFileUri (inst new_machine)) (getConfigFileUri "/ws") = false
      /\ exec [CallWatchConfigurationFile "/ws"; Settle 0 (Fulfilled (PWatchId 1));
               Settle 0 (Fulfilled (PBool false)); Settle 0 (Fulfilled (PBool false))]
           new_machine
         = Some (mkMachine
                   (mkState [] (Some "/ws/.theia/tasks.json") None
                      [DWatcherServer; DClear; DUnwatch 1]
                      [WatchFileChanges "/ws/.theia/tasks.json";
                       LoggerWarn (MsgMissing "tasks.json" "/ws")])
                   []
                   [RefreshTasksSettled (Fulfilled tt);
                    WatchConfigurationFileSettled "/ws" (Fulfilled false)]))
  /\ (uri_matches (watchedConfigFileUri (inst watching_a)) (getConfigFileUri "/ws") = true
      /\ exec [CallWatchConfigurationFile "/ws"; Settle 0 (Fulfilled (PBool false))]
           watching_a
         = Some (mkMachine
                   (emit (LoggerWarn (MsgMissing "tasks.json" "/ws")) (inst watching_a))
                   []
                   [WatchConfigurationFileSettled "/ws" (Fulfilled false)])).
Proof.
  pose proof (missing_file_reports_false "/a") as [_ [Hregister [Hexists [Hrefresh _]]]].
  pose proof (missing_file_reports_false "/ws") as [_ [_ [_ [_ Hschedules]]]].
  split; [|split; [|split; [|split]]].
  - split; [reflexivity|].
    exact (proj2 (Hregister two_switches 0 [WatchRegister "/b" "/b/.theia/tasks.json"]
                    eq_refl) (Failure "watch failed")).
  - split; [reflexivity|].
    exact (proj1 (Hexists
                    (mkMachine (inst watching_a)
                       [ReadTasksExists (Some "/b/.theia/tasks.json");
                        WatchExists "/a" (getConfigFileUri "/a")] [])
                    1 [ReadTasksExists (Some "/b/.theia/tasks.json")] eq_refl) false).
  - split; [reflexivity|].
    exact (Hrefresh
             (mkMachine (inst watching_a) [ReadTasksExists (Some "/b/.theia/tasks.json")] [])
             0 (Some "/b/.theia/tasks.json") [] eq_refl).
  - split; [reflexivity|].
    exact (proj1 (proj2 (Hschedules new_machine false) eq_refl 1)).
  - split; [reflexivity|].
    exact (proj1 (Hschedules watching_a false) eq_refl).
Defined.

(** C8 as stated fails: with no file under [/ws] and a watch registration
    that is rejected, the call rejects; no existence check is made, so
    no warning is logged and no boolean returned. *)
Lemma watch_rejects_with_registration :
  exec [CallWatchConfigurationFile "/ws"; Settle 0 (Rejected (Failure "watch failed"))]
    new_machine
  = Some (mkMachine
            (mkState [] (Some "/ws/.theia/tasks.json") None [DWatcherServer; DClear]
               [WatchFileChanges "/ws/.theia/tasks.json"])
            []
            [WatchConfigurationFileSettled "/ws" (Rejected (Failure "watch failed"))]).
Proof. reflexivity. Qed.

(* ------------------------------------------------------------------ *)
(** ** Change events *)

Lemma find_first_watched (watched : option string) (changes : list FileChange)
  (c : FileChange) :
  first_watched_change watched changes c ->
  find (fun change => uri_matches watched (uri change)) changes = Some c.
Proof.
  intros [before [after [-> [Hbefore Hc]]]].
  induction Hbefore as [|x before Hx _ IH]; simpl.
  - now rewrite Hc.
  - now rewrite Hx.
Qed.

Section Changes.
Context {libs : Libraries}.

(** What the handler does with the change it picked. *)
Lemma change_turn (m : Machine) (changes : list FileChange) (c : FileChange) :
  first_watched_change (watchedConfigFileUri (inst m)) changes c ->
  turn (FilesChanged changes) m
  = Some (with_inst onDidFilesChanged_resume (onDidTaskFileChange c m)).
Proof.
  intros Hc. unfold turn, dispatch, onDidFilesChanged.
  now rewrite (find_first_watched _ _ _ Hc).
Qed.

(** A create or modify change: the client hears the labels held when the
    change arrives, and the refresh is still waiting for its first
    answer. *)
Lemma update_turn (m : Machine) (changes : list FileChange) (c : FileChange)
  (cl : TaskConfigurationClient) :
  first_watched_change (watchedConfigFileUri (inst m)) changes c ->
  type c <> DELETED ->
  client (inst m) = Some cl ->
  turn (FilesChanged changes) m
  = Some (mkMachine (notified cl (getTaskLabels (inst m)) (inst m))
            (pending m ++ [ReadTasksExists (watchedConfigFileUri (inst m))])
            (outcomes m)).
Proof.
  intros Hc Htype Hclient. rewrite (change_turn m changes c Hc).
  unfold onDidTaskFileChange, refreshTasks, suspend, with_inst, onDidFilesChanged_resume,
    notified.
  destruct (type c); try congruence; cbn [inst pending outcomes]; rewrite Hclient;
    now destruct (cl (getTaskLabels (inst m))).
Qed.

(** C5, amended: when the first change of a batch on the watched path
    is a deletion, the turn clears the task map without starting a
    refresh (no request is added, so nothing is read or parsed), then
    calls the registered client with the empty label list; afterwards
    getTaskLabels is empty, whatever the file system holds. *)
Theorem deletion_clears_and_notifies (m : Machine) (changes : list FileChange)
  (c : FileChange) (cl : TaskConfigurationClient) :
  first_watched_change (watchedConfigFileUri (inst m)) changes c ->
  type c = DELETED ->
  client (inst m) = Some cl ->
  exists m',
    turn (FilesChanged changes) m = Some m'
    /\ inst m' = notified cl [] (set_tasksMap [] (inst m))
    /\ tasksMap (inst m') = []
    /\ getTaskLabels (inst m') = []
    /\ (exists logged,
          effects (inst m') = effects (inst m) ++ TaskConfigurationChanged [] :: logged)
    /\ pending m' = pending m
    /\ outcomes m' = outcomes m.
Proof.
  intros Hc Htype Hclient. eexists. rewrite (change_turn m changes c Hc).
  split; [reflexivity|].
  unfold onDidTaskFileChange, with_inst, onDidFilesChanged_resume, notified, set_tasksMap,
    getTaskLabels.
  rewrite Htype. cbn [inst pending outcomes client tasksMap map]. rewrite Hclient.
  destruct (cl []); cbn [tasksMap effects emit map]; repeat split.
  - exists [LoggerError (MsgCaught e)]. now rewrite <- app_assoc.
  - now exists [].
Qed.

(** C9: of a batch, only the first change on the watched path is
    handled: the batch acts as that change alone, whatever follows it
    (a deletion after a modification, say), and a batch without such a
    change does nothing. *)
Theorem one_change_per_batch (m : Machine) :
  (forall (before after : list FileChange) (c : FileChange),
      Forall (fun x => uri_matches (watchedConfigFileUri (inst m)) (uri x) = false) before ->
      uri_matches (watchedConfigFileUri (inst m)) (uri c) = true ->
      turn (FilesChanged (before ++ c :: after)) m = turn (FilesChanged [c]) m)
  /\ (forall changes : list FileChange,
         Forall (fun x => uri_matches (watchedConfigFileUri (inst m)) (uri x) = false) changes ->
         turn (FilesChanged changes) m = Some m).
Proof.
  split.
  - intros before after c Hbefore Hc.
    rewrite (change_turn m (before ++ c :: after) c).
    + rewrite (change_turn m [c] c); [reflexivity|].
      exists [], []. repeat split; [constructor|exact Hc].
    + exists before, after. now repeat split.
  - intros changes Hnone. unfold turn, dispatch, onDidFilesChanged.
    replace (find _ changes) with (@None FileChange); [reflexivity|].
    induction Hnone as [|x changes Hx _ IH]; simpl; [reflexivity|now rewrite Hx].
Qed.

End Changes.

Lemma deletion_clears_and_notifies_witness :
  first_watched_change (watchedConfigFileUri (inst watching_a))
    [mkFileChange "/elsewhere" UPDATED; mkFileChange "/ws/.theia/tasks.json" DELETED]
    (mkFileChange "/ws/.theia/tasks.json" DELETED)
  /\ exists m',
      turn (FilesChanged [mkFileChange "/elsewhere" UPDATED;
                          mkFileChange "/ws/.theia/tasks.json" DELETED]) watching_a
      = Some m'
      /\ inst m' = notified silent_client [] (set_tasksMap [] (inst watching_a))
      /\ tasksMap (inst m') = []
      /\ getTaskLabels (inst m') = []
      /\ (exists logged,
            effects (inst m')
            = effects (inst watching_a) ++ TaskConfigurationChanged [] :: logged)
      /\ pending m' = pending watching_a
      /\ outcomes m' = outcomes watching_a.
Proof.
  assert (H : first_watched_change (watchedConfigFileUri (inst watching_a))
                [mkFileChange "/elsewhere" UPDATED;
                 mkFileChange "/ws/.theia/tasks.json" DELETED]
                (mkFileChange "/ws/.theia/tasks.json" DELETED)).
  { exists [mkFileChange "/elsewhere" UPDATED], []. repeat split.
    repeat constructor. }
  split.
  - exact H.
  - exact (deletion_clears_and_notifies watching_a _ _ silent_client H eq_refl eq_refl).
Defined.

(** C5 as stated fails: a deletion of the watched file that follows a
    modification of it in the same batch is not handled: the map keeps
    task a, the client is called with the label a, and with the file
    gone the refresh started for the modification leaves a in place. *)
Lemma later_deletion_is_ignored :
  exists m1 m2,
    turn (FilesChanged [mkFileChange "/ws/.theia/tasks.json" UPDATED;
                        mkFileChange "/ws/.theia/tasks.json" DELETED]) watching_a
    = Some m1
    /\ tasksMap (inst m1) = [(VStr "a", task "a")]
    /\ effects (inst m1)
       = [WatchFileChanges "/ws/.theia/tasks.json"; TaskConfigurationChanged [VStr "a"]]
    /\ exec [Settle 0 (Fulfilled (PBool false))] m1 = Some m2
    /\ getTaskLabels (inst m2) = [VStr "a"]
    /\ getTaskLabels (inst m2) <> []
    /\ effects (inst m2) = effects (inst m1)
    /\ pending m2 = [].
Proof.
  do 2 eexists. split; [vm_compute; reflexivity|].
  split; [reflexivity|]. split; [reflexivity|].
  split; [vm_compute; reflexivity|]. repeat split. discriminate.
Qed.

Lemma one_change_per_batch_witness :
  Forall (fun x => uri_matches (watchedConfigFileUri (inst watching_a)) (uri x) = false)
    [mkFileChange "/elsewhere" ADDED]
  /\ uri_matches (watchedConfigFileUri (inst watching_a)) "/ws/.theia/tasks.json" = true
  /\ turn (FilesChanged [mkFileChange "/elsewhere" ADDED;
                         mkFileChange "/ws/.theia/tasks.json" UPDATED;
                         mkFileChange "/ws/.theia/tasks.json" DELETED]) watching_a
     = turn (FilesChanged [mkFileChange "/ws/.theia/tasks.json" UPDATED]) watching_a
  /\ turn (FilesChanged [mkFileChange "/elsewhere" ADDED]) watching_a = Some watching_a.
Proof.
  assert (H : Forall
                (fun x => uri_matches (watchedConfigFileUri (inst watching_a)) (uri x) = false)
                [mkFileChange "/elsewhere" ADDED]) by (repeat constructor).
  split; [exact H|]. split; [reflexivity|]. split.
  - exact (proj1 (one_change_per_batch watching_a)
             [mkFileChange "/elsewhere" ADDED]
             [mkFileChange "/ws/.theia/tasks.json" DELETED]
             (mkFileChange "/ws/.theia/tasks.json" UPDATED) H eq_refl).
  - exact (proj2 (one_change_per_batch watching_a) [mkFileChange "/elsewhere" ADDED] H).
Defined.

(** C4, as the code runs it: on a modification of the watched file the
    handler starts the refresh without awaiting it (line 129), so the
    client is called, in the same turn, with the labels held before the
    refresh (here a) while the refresh is still waiting for its first
    answer; when the refresh later succeeds and the map holds b, the
    client is not called again. *)
Theorem change_notifies_stale_labels :
  exists m1 m2,
    turn (FilesChanged [mkFileChange "/ws/.theia/tasks.json" UPDATED]) watching_a = Some m1
    /\ effects (inst m1)
       = [WatchFileChanges "/ws/.theia/tasks.json"; TaskConfigurationChanged [VStr "a"]]
    /\ pending m1 = [ReadTasksExists (Some "/ws/.theia/tasks.json")]
    /\ exec [Settle 0 (Fulfilled (PBool true)); Settle 0 (Fulfilled (PContent text_b))] m1
       = Some m2
    /\ getTaskLabels (inst m2) = [VStr "b"]
    /\ effects (inst m2) = effects (inst m1)
    /\ pending m2 = []
    /\ outcomes m2 = [RefreshTasksSettled (Fulfilled tt)].
Proof.
  do 2 eexists. split; [vm_compute; reflexivity|].
  split; [reflexivity|]. split; [reflexivity|].
  split; [vm_compute; reflexivity|]. repeat split.
Qed.

(* ------------------------------------------------------------------ *)
(** ** Shape of the parsed document *)

Lemma filter_loop_tasksMap (tasks : list Value) :
  forall (acc : list Value) (s : State),
    tasksMap (fst (filter_loop tasks acc s)) = tasksMap s.
Proof.
  induction tasks as [|x rest IH]; intros acc s; simpl.
  - reflexivity.
  - destruct (some_same_label acc x) as [[|]|e]; simpl.
    + destruct (get_prop x "label"); simpl; [|reflexivity]. now rewrite IH.
    + apply IH.
    + reflexivity.
Qed.

Lemma filterDuplicates_tasksMap (v : Value) (s : State) :
  tasksMap (fst (filterDuplicates v s)) = tasksMap s.
Proof.
  unfold filterDuplicates. destruct (iterate v); simpl.
  - apply filter_loop_tasksMap.
  - reflexivity.
Qed.

Section Shape.
Context {libs : Libraries}.

Lemma readTasks_content_tasksMap (u : option string) (r : Settled string) (s : State) :
  tasksMap (fst (readTasks_content u r s)) = tasksMap s.
Proof.
  unfold readTasks_content, readTasks_parse. destruct r as [content|e]; [|reflexivity].
  destruct (parse (stripComments content)) as [doc [|e errors]].
  - destruct (get_prop doc "tasks") as [v|e]; [|reflexivity].
    pose proof (filterDuplicates_tasksMap v s) as Hf.
    destruct (filterDuplicates v s) as [s' [filtered|e]]; simpl in *; exact Hf.
  - now rewrite log_parse_errors_emit_all.
Qed.


End Shape.



(* ------------------------------------------------------------------ *)
(** ** The map is keyed by label *)

Lemma map_set_keyed (k v : Value) (m : TaskMap) :
  get_prop v "label" = Fulfilled k ->
  keyed_by_label m ->
  keyed_by_label (map_set k v m).
Proof.
  intros Hv Hm. induction Hm as [|[k' v'] rest Hentry Hrest IH]; simpl.
  - repeat constructor. exact Hv.
  - destruct (strict_eq k' k) eqn:E.
    + constructor; [|exact Hrest]. simpl. apply strict_eq_true in E. now subst.
    + constructor; [exact Hentry|exact IH].
Qed.

Lemma map_get_keyed (k t : Value) (m : TaskMap) :
  keyed_by_label m ->
  map_get k m = Some t ->
  get_prop t "label" = Fulfilled k.
Proof.
  intros Hm. induction Hm as [|[k' v'] rest Hentry _ IH]; simpl.
  - discriminate.
  - destruct (strict_eq k' k) eqn:E.
    + intros [= <-]. apply strict_eq_true in E. now subst.
    + exact IH.
Qed.

Lemma dispose_tasksMap (ds : list Disposable) :
  forall s,
    tasksMap (fold_left (fun s d => run_disposable d s) ds s) = tasksMap s
    \/ tasksMap (fold_left (fun s d => run_disposable d s) ds s) = [].
Proof.
  induction ds as [|d ds IH]; intros s; simpl.
  - now left.
  - destruct (IH (run_disposable d s)) as [E|E]; rewrite E.
    + destruct d; simpl; auto.
    + now right.
Qed.

Lemma resume_handler_tasksMap (s : State) :
  tasksMap (onDidFilesChanged_resume s) = tasksMap s.
Proof.
  unfold onDidFilesChanged_resume. destruct (client s) as [c|]; [|reflexivity].
  now destruct (c (getTaskLabels s)).
Qed.

Section Invariant.
Context {libs : Libraries}.

Lemma set_all_keyed (tasks : list Value) :
  forall m, keyed_by_label m -> keyed_by_label (fst (set_all tasks m)).
Proof.
  induction tasks as [|x rest IH]; intros m Hm; simpl.
  - exact Hm.
  - destruct (get_prop x "label") as [l|e] eqn:E; simpl.
    + apply IH. now apply map_set_keyed.
    + exact Hm.
Qed.

Lemma refresh_resume_keyed (r : Settled (option (list Value))) (s : State) :
  keyed_by_label (tasksMap s) ->
  keyed_by_label (tasksMap (fst (refreshTasks_resume r s))).
Proof.
  intros Hs. unfold refreshTasks_resume. destruct r as [[arr|]|e]; simpl; try exact Hs.
  pose proof (set_all_keyed arr [] (Forall_nil _)) as Hset.
  destruct (set_all arr []) as [m r']. exact Hset.
Qed.

Lemma run_microtask_keyed (t : Microtask) (m : Machine) :
  keyed_by_label (tasksMap (inst m)) ->
  keyed_by_label (tasksMap (inst (run_microtask m t))).
Proof.
  intros Hm. destruct t as [r|]; simpl.
  - pose proof (refresh_resume_keyed r (inst m) Hm) as Hr.
    destruct (refreshTasks_resume r (inst m)) as [s' result]. exact Hr.
  - now rewrite resume_handler_tasksMap.
Qed.

Lemma run_queue_keyed (queue : list Microtask) :
  forall m,
    keyed_by_label (tasksMap (inst m)) ->
    keyed_by_label (tasksMap (inst (fold_left run_microtask queue m))).
Proof.
  induction queue as [|t queue IH]; intros m Hm; simpl.
  - exact Hm.
  - apply IH. now apply run_microtask_keyed.
Qed.

Lemma resume_keyed (w : Waiting) (r : Settled Payload) (m m' : Machine)
  (queue : list Microtask) :
  keyed_by_label (tasksMap (inst m)) ->
  resume w r m = Some (m', queue) ->
  keyed_by_label (tasksMap (inst m')).
Proof.
  intros Hm Hresume.
  destruct w as [u|u|rootUri configFile|rootUri configFile];
    destruct r as [[b|c|n]|e]; unfold resume in Hresume; try discriminate.
  - destruct b; injection Hresume as <- _; exact Hm.
  - injection Hresume as <- _. exact Hm.
  - pose proof (readTasks_content_tasksMap u (Fulfilled c) (inst m)) as Hread.
    destruct (readTasks_content u (Fulfilled c) (inst m)) as [s' result].
    injection Hresume as <- _. simpl in *. now rewrite Hread.
  - pose proof (readTasks_content_tasksMap u (Rejected e) (inst m)) as Hread.
    destruct (readTasks_content u (Rejected e) (inst m)) as [s' result].
    injection Hresume as <- _. simpl in *. now rewrite Hread.
  - injection Hresume as <- _. exact Hm.
  - injection Hresume as <- _. exact Hm.
  - destruct b; injection Hresume as <- _; exact Hm.
  - injection Hresume as <- _. exact Hm.
Qed.

Lemma dispatch_keyed (e : Event) (m m' : Machine) (queue : list Microtask) :
  keyed_by_label (tasksMap (inst m)) ->
  dispatch e m = Some (m', queue) ->
  keyed_by_label (tasksMap (inst m')).
Proof.
  intros Hm Hd. destruct e as [c|rootUri| |changes|i r]; simpl in Hd.
  - injection Hd as <- _. exact Hm.
  - injection Hd as <- _. unfold watchConfigurationFile.
    now destruct (uri_matches _ _).
  - injection Hd as <- _. unfold with_inst, dispose. cbn [inst tasksMap].
    destruct (dispose_tasksMap (rev (toDispose (inst m))) (inst m)) as [E|E]; rewrite E.
    + exact Hm.
    + constructor.
  - unfold onDidFilesChanged in Hd.
    destruct (find _ changes) as [c|]; injection Hd as <- _; [|exact Hm].
    unfold onDidTaskFileChange. destruct (type c); try exact Hm. constructor.
  - destruct (take_nth i (pending m)) as [[w others]|]; [|discriminate].
    now apply (resume_keyed w r (mkMachine (inst m) others (outcomes m)) m' queue Hm Hd).
Qed.

Lemma turn_keyed (e : Event) (m m' : Machine) :
  keyed_by_label (tasksMap (inst m)) ->
  turn e m = Some m' ->
  keyed_by_label (tasksMap (inst m')).
Proof.
  intros Hm Hturn. unfold turn in Hturn.
  destruct (dispatch e m) as [[m1 queue]|] eqn:Hd; [|discriminate].
  injection Hturn as <-. apply run_queue_keyed. now apply (dispatch_keyed e m m1 queue).
Qed.

Lemma exec_keyed (events : list Event) :
  forall m m',
    keyed_by_label (tasksMap (inst m)) ->
    exec events m = Some m' ->
    keyed_by_label (tasksMap (inst m')).
Proof.
  induction events as [|e events IH]; intros m m' Hm Hexec; simpl in Hexec.
  - injection Hexec as <-. exact Hm.
  - destruct (turn e m) as [m1|] eqn:Hturn; [|discriminate].
    apply (IH m1 m'); [|exact Hexec]. now apply (turn_keyed e m m1).
Qed.

(** C10: in the map of a new instance, and after every turn of an
    instance whose map has the property (a call of setClient,
    watchConfigurationFile or dispose, a batch of changes, the settling
    of a request with the refresh it resumes), each key is the label of
    the task stored under it; so it is in every state reached from the
    constructor, and getTask on a label is absent or returns a task
    whose label is that label. *)
Theorem map_keyed_by_label :
  keyed_by_label (tasksMap new_instance)
  /\ (forall (e : Event) (m m' : Machine),
         keyed_by_label (tasksMap (inst m)) ->
         turn e m = Some m' ->
         keyed_by_label (tasksMap (inst m')))
  /\ (forall (events : list Event) (m : Machine),
         exec events new_machine = Some m ->
         keyed_by_label (tasksMap (inst m))
         /\ forall (l : string) (t : Value),
             getTask l (inst m) = Some t -> get_prop t "label" = Fulfilled (VStr l)).
Proof.
  split; [constructor|]. split; [exact turn_keyed|].
  intros events m Hexec.
  assert (Hm : keyed_by_label (tasksMap (inst m))).
  { apply (exec_keyed events new_machine m); [constructor|exact Hexec]. }
  split; [exact Hm|]. intros l t Hget. unfold getTask in Hget.
  destruct (map_has (VStr l) (tasksMap (inst m))); [|discriminate].
  now apply (map_get_keyed (VStr l) t (tasksMap (inst m))).
Qed.

End Invariant.

Lemma map_keyed_by_label_witness :
  (exists m,
      exec [CallWatchConfigurationFile "/ws"; Settle 0 (Fulfilled (PWatchId 1));
            Settle 0 (Fulfilled (PBool true)); Settle 1 (Fulfilled (PContent text_b));
            Settle 0 (Fulfilled (PBool true))] new_machine
      = Some m
      /\ getTask "b" (inst m) = Some (task "b")
      /\ keyed_by_label (tasksMap (inst m))
      /\ get_prop (task "b") "label" = Fulfilled (VStr "b"))
  /\ keyed_by_label (tasksMap (inst watching_a))
  /\ (exists m',
         turn (FilesChanged [mkFileChange "/ws/.theia/tasks.json" DELETED]) watching_a
         = Some m'
         /\ keyed_by_label (tasksMap (inst m'))).
Proof.
  split.
  - eexists. split; [vm_compute; reflexivity|]. split; [reflexivity|].
    pose proof (proj2 (proj2 map_keyed_by_label)
                  [CallWatchConfigurationFile "/ws"; Settle 0 (Fulfilled (PWatchId 1));
                   Settle 0 (Fulfilled (PBool true)); Settle 1 (Fulfilled (PContent text_b));
                   Settle 0 (Fulfilled (PBool true))] _ eq_refl) as [Hkeyed Hget].
    split; [exact Hkeyed|]. exact (Hget "b" (task "b") eq_refl).
  - assert (Ha : keyed_by_label (tasksMap (inst watching_a))) by (repeat constructor).
    split; [exact Ha|]. eexists. split; [reflexivity|].
    exact (proj1 (proj2 map_keyed_by_label)
             (FilesChanged [mkFileChange "/ws/.theia/tasks.json" DELETED])
             watching_a _ Ha eq_refl).
Defined.

(* ------------------------------------------------------------------ *)
(** ** Further properties of filterDuplicates *)

Lemma filterDuplicates_spec (tasks : list Value) (s : State) :
  Forall (fun v => indexable v = true) tasks ->
  filterDuplicates (VArr tasks) s
  = (emit_all (map duplicate_error (later_occurrences [] tasks)) s,
     Fulfilled (first_occurrences [] tasks)).
Proof.
  intros Htasks. unfold filterDuplicates. simpl.
  now rewrite (filter_loop_spec tasks [] [] s Htasks).
Qed.

Lemma first_occurrences_incl (tasks : list Value) :
  forall earlier, incl (first_occurrences earlier tasks) tasks.
Proof.
  induction tasks as [|x rest IH]; intros earlier; simpl.
  - apply incl_refl.
  - destruct (existsb (fun t => same_label t x) earlier).
    + apply incl_tl, IH.
    + apply incl_cons; [now left|]. apply incl_tl, IH.
Qed.

Lemma first_occurrences_indexable (tasks earlier : list Value) :
  Forall (fun v => indexable v = true) tasks ->
  Forall (fun v => indexable v = true) (first_occurrences earlier tasks).
Proof.
  intros Htasks. apply Forall_forall. intros x Hx.
  rewrite Forall_forall in Htasks. apply Htasks.
  now apply (first_occurrences_incl tasks earlier).
Qed.

Lemma occurrences_length (tasks : list Value) :
  forall earlier,
    List.length (first_occurrences earlier tasks)
    + List.length (later_occurrences earlier tasks)
    = List.length tasks.
Proof.
  induction tasks as [|x rest IH]; intros earlier; simpl.
  - reflexivity.
  - destruct (existsb (fun t => same_label t x) earlier); simpl;
      specialize (IH (earlier ++ [x])); lia.
Qed.

Lemma first_occurrences_fresh (tasks : list Value) :
  forall kept earlier,
    (forall x, existsb (fun t => same_label t x) kept = true ->
               existsb (fun t => same_label t x) earlier = true) ->
    fresh_labels kept (first_occurrences earlier tasks) = true.
Proof.
  induction tasks as [|x rest IH]; intros kept earlier Hcover; simpl.
  - reflexivity.
  - destruct (existsb (fun t => same_label t x) earlier) eqn:Hdup.
    + apply IH. intros y Hy. rewrite existsb_app, (Hcover y Hy). reflexivity.
    + simpl. apply andb_true_intro. split.
      * destruct (existsb (fun t => same_label t x) kept) eqn:Hkept; [|reflexivity].
        rewrite (Hcover x Hkept) in Hdup. discriminate.
      * apply IH. intros y Hy. rewrite existsb_app in *.
        apply orb_true_iff in Hy as [Hy|Hy].
        -- now rewrite (Hcover y Hy).
        -- rewrite Hy. apply orb_true_r.
Qed.

Lemma fresh_labels_fixed (tasks : list Value) :
  forall earlier,
    fresh_labels earlier tasks = true ->
    first_occurrences earlier tasks = tasks /\ later_occurrences earlier tasks = [].
Proof.
  induction tasks as [|x rest IH]; intros earlier Hfresh; simpl in *.
  - split; reflexivity.
  - apply andb_true_iff in Hfresh as [Hx Hrest].
    apply negb_true_iff in Hx. rewrite Hx.
    destruct (IH _ Hrest) as [-> ->]. split; reflexivity.
Qed.

Lemma is_task_indexable (v : Value) : is_task v = true -> indexable v = true.
Proof. destruct v; simpl; intros H; try discriminate; reflexivity. Qed.

Lemma is_task_label (v : Value) :
  is_task v = true -> exists l, label_of v = VStr l.
Proof.
  destruct v as [| | | | | |fields]; simpl; try discriminate.
  unfold label_of. simpl. destruct (lookup_field "label" fields); try discriminate.
  intros _. now eexists.
Qed.

Lemma is_task_same_label (v : Value) : is_task v = true -> same_label v v = true.
Proof.
  intros Hv. destruct (is_task_label v Hv) as [l Hl]. unfold same_label.
  rewrite Hl. simpl. apply String.eqb_refl.
Qed.

Lemma forallb_is_task_indexable (tasks : list Value) :
  forallb is_task tasks = true -> Forall (fun v => indexable v = true) tasks.
Proof.
  intros Htasks. apply Forall_forall. intros x Hx.
  rewrite forallb_forall in Htasks. now apply is_task_indexable, Htasks.
Qed.

Lemma fresh_labels_NoDup (tasks : list Value) :
  forall earlier,
    (forall t, In t tasks -> same_label t t = true) ->
    fresh_labels earlier tasks = true ->
    NoDup (map label_of tasks)
    /\ forall t, In t tasks -> ~ In (label_of t) (map label_of earlier).
Proof.
  induction tasks as [|x rest IH]; intros earlier Hrefl Hfresh; simpl in *.
  - split; [constructor|]. intros t [].
  - apply andb_true_iff in Hfresh as [Hx Hrest]. apply negb_true_iff in Hx.
    destruct (IH (earlier ++ [x])) as [Hnodup Hapart]; [auto|exact Hrest|].
    assert (Hxnew : ~ In (label_of x) (map label_of earlier)).
    { intros Hin. apply in_map_iff in Hin as [t [Hl Ht]].
      assert (Hex : existsb (fun t => same_label t x) earlier = true).
      { apply existsb_exists. exists t. split; [exact Ht|].
        unfold same_label. rewrite Hl. apply (Hrefl x). now left. }
      rewrite Hex in Hx. discriminate. }
    split.
    + constructor; [|exact Hnodup]. intros Hin. apply in_map_iff in Hin as [t [Hl Ht]].
      apply (Hapart t Ht). rewrite map_app, Hl. apply in_or_app. right. now left.
    + intros t [<-|Ht]; [exact Hxnew|]. intros Hin. apply (Hapart t Ht).
      rewrite map_app. apply in_or_app. now left.
Qed.

(** X4: filterDuplicates, lines 177-188: on a sequence of task objects the
    labels of the surviving tasks are pairwise different. *)
Theorem filterDuplicates_distinct_labels (tasks : list Value) (s : State) :
  forallb is_task tasks = true ->
  exists s' filtered,
    filterDuplicates (VArr tasks) s = (s', Fulfilled filtered)
    /\ distinct_labels filtered = true
    /\ NoDup (map label_of filtered).
Proof.
  intros Htasks. pose proof (forallb_is_task_indexable tasks Htasks) as Hindex.
  do 2 eexists. split; [apply (filterDuplicates_spec tasks s Hindex)|].
  assert (Hfresh : fresh_labels [] (first_occurrences [] tasks) = true)
    by (apply first_occurrences_fresh; auto).
  split; [exact Hfresh|].
  apply (fresh_labels_NoDup (first_occurrences [] tasks) []); [|exact Hfresh].
  intros t Ht. apply is_task_same_label. rewrite forallb_forall in Htasks.
  now apply Htasks, (first_occurrences_incl tasks []).
Qed.

Lemma filterDuplicates_distinct_labels_witness :
  forallb is_task [build; task "test"; build_again] = true
  /\ exists s' filtered,
      filterDuplicates (VArr [build; task "test"; build_again]) new_instance
      = (s', Fulfilled filtered)
      /\ distinct_labels filtered = true
      /\ NoDup (map label_of filtered).
Proof.
  split.
  - reflexivity.
  - exact (filterDuplicates_distinct_labels [build; task "test"; build_again]
             new_instance eq_refl).
Defined.

(** X5: filterDuplicates, lines 177-188: filtering its own result again
    returns the same sequence and logs nothing. *)
Theorem filterDuplicates_idempotent (tasks : list Value) (s : State) :
  Forall (fun v => indexable v = true) tasks ->
  exists s' filtered,
    filterDuplicates (VArr tasks) s = (s', Fulfilled filtered)
    /\ filterDuplicates (VArr filtered) s' = (s', Fulfilled filtered).
Proof.
  intros Hindex. do 2 eexists. split; [apply (filterDuplicates_spec tasks s Hindex)|].
  rewrite filterDuplicates_spec by now apply first_occurrences_indexable.
  destruct (fresh_labels_fixed (first_occurrences [] tasks) []) as [-> ->].
  - apply first_occurrences_fresh. auto.
  - simpl. now rewrite emit_all_nil.
Qed.

Lemma filterDuplicates_idempotent_witness :
  Forall (fun v => indexable v = true) [build; task "test"; build_again]
  /\ exists s' filtered,
      filterDuplicates (VArr [build; task "test"; build_again]) new_instance
      = (s', Fulfilled filtered)
      /\ filterDuplicates (VArr filtered) s' = (s', Fulfilled filtered).
Proof.
  assert (H : Forall (fun v => indexable v = true) [build; task "test"; build_again])
    by (repeat constructor).
  split; [exact H|].
  exact (filterDuplicates_idempotent [build; task "test"; build_again] new_instance H).
Defined.

(** X6: filterDuplicates, lines 177-188: every task is either returned or
    reported: the surviving tasks and the errors logged by the call add
    up to the length of the input. *)
Theorem filterDuplicates_accounts_for_all (tasks filtered : list Value) (s s' : State) :
  Forall (fun v => indexable v = true) tasks ->
  filterDuplicates (VArr tasks) s = (s', Fulfilled filtered) ->
  List.length filtered + (List.length (effects s') - List.length (effects s))
  = List.length tasks
  /\ List.length (effects s) <= List.length (effects s').
Proof.
  intros Hindex Hrun. rewrite (filterDuplicates_spec tasks s Hindex) in Hrun.
  injection Hrun as <- <-. unfold emit_all. cbn [effects].
  rewrite length_app, length_map.
  pose proof (occurrences_length tasks []). lia.
Qed.

Lemma filterDuplicates_accounts_for_all_witness :
  Forall (fun v => indexable v = true) [build; task "test"; build_again]
  /\ filterDuplicates (VArr [build; task "test"; build_again]) new_instance
     = (emit (LoggerError (MsgDuplicate TASKFILE (VStr "build"))) new_instance,
        Fulfilled [build; task "test"])
  /\ 2 + (1 - 0) = 3.
Proof.
  assert (H : Forall (fun v => indexable v = true) [build; task "test"; build_again])
    by (repeat constructor).
  split; [exact H|]. split; [reflexivity|].
  exact (proj1 (filterDuplicates_accounts_for_all [build; task "test"; build_again]
                  [build; task "test"] new_instance
                  (emit (LoggerError (MsgDuplicate TASKFILE (VStr "build"))) new_instance)
                  H eq_refl)).
Defined.

Lemma first_occurrences_cover (tasks : list Value) :
  forall kept earlier,
    (forall y, existsb (fun t => same_label t y) earlier = true ->
               existsb (fun t => same_label t y) kept = true) ->
    forall x, In x tasks -> same_label x x = true ->
      existsb (fun t => same_label t x) (kept ++ first_occurrences earlier tasks) = true.
Proof.
  induction tasks as [|h rest IH]; intros kept earlier Hcover x Hx Hrefl; simpl in *.
  - destruct Hx.
  - destruct (existsb (fun t => same_label t h) earlier) eqn:Hdup.
    + destruct Hx as [->|Hx].
      * rewrite existsb_app, (Hcover x Hdup). reflexivity.
      * apply (IH kept (earlier ++ [h])); [|exact Hx|exact Hrefl].
        intros y Hy. rewrite existsb_app in Hy. apply orb_true_iff in Hy as [Hy|Hy].
        -- now apply Hcover.
        -- simpl in Hy. rewrite orb_false_r in Hy. apply Hcover.
           apply existsb_exists in Hdup as [t [Hin Ht]].
           apply existsb_exists. exists t. split; [exact Hin|].
           now rewrite (same_label_congr t h y Ht).
    + replace (kept ++ h :: first_occurrences (earlier ++ [h]) rest)
        with ((kept ++ [h]) ++ first_occurrences (earlier ++ [h]) rest)
        by now rewrite <- app_assoc.
      destruct Hx as [->|Hx].
      * rewrite !existsb_app. simpl. rewrite Hrefl.
        rewrite orb_true_r. reflexivity.
      * apply (IH (kept ++ [h]) (earlier ++ [h])); [|exact Hx|exact Hrefl].
        intros y Hy. rewrite existsb_app in *. apply orb_true_iff in Hy as [Hy|Hy].
        -- now rewrite (Hcover y Hy).
        -- rewrite Hy. apply orb_true_r.
Qed.

(** X7: filterDuplicates, lines 177-188: on a sequence of task objects no
    label is lost and no task is made up: every surviving task is one of
    the input, and every input task has a surviving task of its label. *)
Theorem filterDuplicates_keeps_every_label (tasks : list Value) (s : State) :
  forallb is_task tasks = true ->
  exists s' filtered,
    filterDuplicates (VArr tasks) s = (s', Fulfilled filtered)
    /\ incl filtered tasks
    /\ forall t, In t tasks -> exists t', In t' filtered /\ label_of t' = label_of t.
Proof.
  intros Htasks. pose proof (forallb_is_task_indexable tasks Htasks) as Hindex.
  do 2 eexists. split; [apply (filterDuplicates_spec tasks s Hindex)|].
  split; [apply first_occurrences_incl|].
  intros t Ht.
  assert (Hrefl : same_label t t = true).
  { apply is_task_same_label. rewrite forallb_forall in Htasks. now apply Htasks. }
  pose proof (first_occurrences_cover tasks [] [] (fun y H => H) t Ht Hrefl) as Hex.
  simpl in Hex. apply existsb_exists in Hex as [t' [Hin Hsame]].
  exists t'. split; [exact Hin|]. now apply strict_eq_true.
Qed.

Lemma filterDuplicates_keeps_every_label_witness :
  forallb is_task [build; task "test"; build_again] = true
  /\ exists s' filtered,
      filterDuplicates (VArr [build; task "test"; build_again]) new_instance
      = (s', Fulfilled filtered)
      /\ incl filtered [build; task "test"; build_again]
      /\ forall t, In t [build; task "test"; build_again] ->
           exists t', In t' filtered /\ label_of t' = label_of t.
Proof.
  split.
  - reflexivity.
  - exact (filterDuplicates_keeps_every_label [build; task "test"; build_again]
             new_instance eq_refl).
Defined.

(* ------------------------------------------------------------------ *)
(** ** Further properties of the refresh and of the pull interface *)

Lemma map_set_fresh (x : Value) (earlier : list Value) :
  existsb (fun t => same_label t x) earlier = false ->
  map_set (label_of x) x (keyed earlier) = keyed (earlier ++ [x]).
Proof.
  induction earlier as [|t rest IH]; simpl; intros Hfresh.
  - reflexivity.
  - apply orb_false_iff in Hfresh as [Ht Hrest]. unfold same_label in Ht.
    rewrite Ht. now rewrite (IH Hrest).
Qed.

Lemma set_all_fresh (tasks : list Value) :
  forall earlier,
    Forall (fun v => indexable v = true) tasks ->
    fresh_labels earlier tasks = true ->
    set_all tasks (keyed earlier) = (keyed (earlier ++ tasks), Fulfilled tt).
Proof.
  induction tasks as [|x rest IH]; intros earlier Hindex Hfresh; simpl in *.
  - now rewrite app_nil_r.
  - inversion Hindex as [|? ? Hx Hrest]; subst.
    apply andb_true_iff in Hfresh as [Hnew Hfresh]. apply negb_true_iff in Hnew.
    rewrite (get_prop_indexable x Hx), (map_set_fresh x earlier Hnew).
    rewrite (IH (earlier ++ [x]) Hrest Hfresh). now rewrite <- app_assoc.
Qed.

Lemma map_has_keyed (k : Value) (tasks : list Value) :
  map_has k (keyed tasks) = existsb (has_label k) tasks.
Proof.
  induction tasks as [|t rest IH]; simpl; [reflexivity|]. now rewrite IH.
Qed.

Lemma map_get_keyed_find (k : Value) (tasks : list Value) :
  map_get k (keyed tasks) = find (has_label k) tasks.
Proof.
  induction tasks as [|t rest IH]; simpl; [reflexivity|].
  unfold has_label at 1. now destruct (strict_eq (label_of t) k).
Qed.

Lemma find_existsb_false {A : Type} (p : A -> bool) (l : list A) :
  existsb p l = false -> find p l = None.
Proof.
  induction l as [|x rest IH]; simpl; [reflexivity|].
  destruct (p x); simpl; [discriminate|exact IH].
Qed.

Lemma find_first_occurrences (k : Value) (tasks : list Value) :
  forall earlier,
    existsb (has_label k) earlier = false ->
    find (has_label k) (first_occurrences earlier tasks) = find (has_label k) tasks.
Proof.
  induction tasks as [|x rest IH]; intros earlier Hnone; simpl.
  - reflexivity.
  - assert (Hnext : has_label k x = false ->
                    existsb (has_label k) (earlier ++ [x]) = false).
    { intros Hx. rewrite existsb_app, Hnone. simpl. now rewrite Hx. }
    destruct (existsb (fun t => same_label t x) earlier) eqn:Hdup.
    + assert (Hx : has_label k x = false).
      { apply existsb_exists in Hdup as [t [Hin Ht]].
        unfold same_label in Ht. apply strict_eq_true in Ht.
        destruct (has_label k x) eqn:Hkx; [|reflexivity].
        assert (Hex : existsb (has_label k) earlier = true).
        { apply existsb_exists. exists t. split; [exact Hin|].
          unfold has_label in *. now rewrite Ht. }
        rewrite Hex in Hnone. discriminate. }
      rewrite Hx. apply IH. now apply Hnext.
    + simpl. destruct (has_label k x) eqn:Hx; [reflexivity|]. apply IH. now apply Hnext.
Qed.

Lemma getTask_keyed (l : string) (tasks : list Value) (s : State) :
  getTask l (set_tasksMap (keyed tasks) s) = find (has_label (VStr l)) tasks.
Proof.
  unfold getTask, set_tasksMap. cbn [tasksMap].
  rewrite map_has_keyed, map_get_keyed_find.
  destruct (existsb (has_label (VStr l)) tasks) eqn:E; [reflexivity|].
  now rewrite (find_existsb_false _ _ E).
Qed.

Lemma map_has_In (l : string) (m : TaskMap) :
  map_has (VStr l) m = true <-> In (VStr l) (map fst m).
Proof.
  induction m as [|[k v] rest IH]; simpl.
  - split; [discriminate|intros []].
  - rewrite orb_true_iff, IH. split; intros [H|H]; auto.
    + left. now apply strict_eq_true in H.
    + left. subst k. simpl. apply String.eqb_refl.
Qed.

Lemma map_has_get (k : Value) (m : TaskMap) :
  map_has k m = true -> exists t, map_get k m = Some t.
Proof.
  induction m as [|[k' v] rest IH]; simpl; [discriminate|].
  destruct (strict_eq k' k); simpl; [now exists v|exact IH].
Qed.

(** X3: getTask and getTaskLabels, lines 102-113: getTask answers a task
    exactly on the labels that getTaskLabels lists. *)
Theorem getTask_defined_on_labels (s : State) (l : string) :
  (exists t, getTask l s = Some t) <-> In (VStr l) (getTaskLabels s).
Proof.
  unfold getTask, getTaskLabels. rewrite <- map_has_In.
  destruct (map_has (VStr l) (tasksMap s)) eqn:Hhas.
  - split; [reflexivity|]. intros _. now apply map_has_get.
  - split; [intros [t Ht]; discriminate|discriminate].
Qed.

Section RefreshSuccess.
Context {libs : Libraries}.

(** The turn in which the content of a refresh arrives and holds an array
    of tasks. *)
Lemma content_success_turn (s : State) (waiting others : list Waiting) (o : list Outcome)
  (i : nat) (u : option string) (content : string) (doc : Value) (tasks : list Value) :
  take_nth i waiting = Some (ReadTasksContent u, others) ->
  parse (stripComments content) = (doc, []) ->
  get_prop doc "tasks" = Fulfilled (VArr tasks) ->
  Forall (fun v => indexable v = true) tasks ->
  turn (Settle i (Fulfilled (PContent content))) (mkMachine s waiting o)
  = Some (mkMachine (refreshed tasks s) others (o ++ [RefreshTasksSettled (Fulfilled tt)])).
Proof.
  intros Htake Hparse Hdoc Hindex. unfold turn, dispatch. cbn [pending inst outcomes].
  rewrite Htake. unfold resume, readTasks_content, readTasks_parse. cbn [inst].
  rewrite Hparse, Hdoc, (filterDuplicates_spec tasks s Hindex).
  cbn [with_inst inst pending outcomes fold_left run_microtask refreshTasks_resume].
  pose proof (set_all_fresh (first_occurrences [] tasks) []
                (first_occurrences_indexable tasks [] Hindex)
                (first_occurrences_fresh tasks [] [] (fun x H => H))) as Hset.
  cbn [keyed map app] in Hset.
  replace (tasksMap (set_tasksMap []
             (emit_all (map duplicate_error (later_occurrences [] tasks)) s)))
    with (@nil (Value * Value)) by reflexivity.
  rewrite Hset. reflexivity.
Qed.

(** X1: refreshTasks and readTasks, lines 137-175: when the content read by
    a refresh parses without errors and holds an array of tasks under
    ["tasks"], the map is replaced as a whole, whatever it held and
    whatever path is watched by then: one entry per first occurrence of a
    label, in the order of the array, after one error per later
    occurrence; getTaskLabels lists those labels in that order. *)
Theorem refresh_installs_first_occurrences (m : Machine) (u : option string)
  (content : string) (doc : Value) (tasks : list Value) :
  parse (stripComments content) = (doc, []) ->
  get_prop doc "tasks" = Fulfilled (VArr tasks) ->
  Forall (fun v => indexable v = true) tasks ->
  exists m',
    turn (Settle (List.length (pending m)) (Fulfilled (PContent content)))
      (suspend (ReadTasksContent u) m)
    = Some m'
    /\ tasksMap (inst m') = keyed (first_occurrences [] tasks)
    /\ getTaskLabels (inst m') = map label_of (first_occurrences [] tasks)
    /\ effects (inst m')
       = effects (inst m) ++ map duplicate_error (later_occurrences [] tasks)
    /\ pending m' = pending m
    /\ outcomes m' = outcomes m ++ [RefreshTasksSettled (Fulfilled tt)].
Proof.
  intros Hparse Hdoc Hindex. eexists. unfold suspend.
  rewrite (content_success_turn _ _ (pending m) _ _ u content doc tasks
             (take_nth_last _ _) Hparse Hdoc Hindex).
  split; [reflexivity|]. cbn [inst pending outcomes]. repeat split.
  unfold getTaskLabels, refreshed, set_tasksMap, keyed. cbn [tasksMap].
  now rewrite map_map.
Qed.

(** X2: getTask after refreshTasks, lines 107-113 and 137-150: once such a
    refresh has completed, getTask on a label returns the first task of
    the array with that label, and nothing when the array has none. *)
Theorem getTask_after_refresh (m : Machine) (u : option string)
  (content : string) (doc : Value) (tasks : list Value) :
  parse (stripComments content) = (doc, []) ->
  get_prop doc "tasks" = Fulfilled (VArr tasks) ->
  Forall (fun v => indexable v = true) tasks ->
  exists m',
    turn (Settle (List.length (pending m)) (Fulfilled (PContent content)))
      (suspend (ReadTasksContent u) m)
    = Some m'
    /\ forall l, getTask l (inst m') = find (has_label (VStr l)) tasks.
Proof.
  intros Hparse Hdoc Hindex. eexists. unfold suspend.
  rewrite (content_success_turn _ _ (pending m) _ _ u content doc tasks
             (take_nth_last _ _) Hparse Hdoc Hindex).
  split; [reflexivity|]. intros l. cbn [inst]. unfold refreshed.
  rewrite getTask_keyed. now apply find_first_occurrences.
Qed.


End RefreshSuccess.

Lemma refresh_installs_first_occurrences_witness :
  parse (Libraries := more_libs) (stripComments (Libraries := more_libs) text_builds)
  = (VObj [("tasks", VArr [build; task "test"; build_again])], [])
  /\ Forall (fun v => indexable v = true) [build; task "test"; build_again]
  /\ exists m',
      turn (libs := more_libs) (Settle 0 (Fulfilled (PContent text_builds)))
        (suspend (ReadTasksContent (Some "/old/.theia/tasks.json")) watching_a)
      = Some m'
      /\ tasksMap (inst m') = [(VStr "build", build); (VStr "test", task "test")]
      /\ getTaskLabels (inst m') = [VStr "build"; VStr "test"]
      /\ effects (inst m')
         = effects (inst watching_a) ++ [LoggerError (MsgDuplicate TASKFILE (VStr "build"))]
      /\ pending m' = []
      /\ outcomes m' = [RefreshTasksSettled (Fulfilled tt)].
Proof.
  assert (H : Forall (fun v => indexable v = true) [build; task "test"; build_again])
    by (repeat constructor).
  split; [reflexivity|]. split; [exact H|].
  exact (refresh_installs_first_occurrences (libs := more_libs) watching_a
           (Some "/old/.theia/tasks.json") text_builds
           (VObj [("tasks", VArr [build; task "test"; build_again])])
           [build; task "test"; build_again] eq_refl eq_refl H).
Defined.

Lemma getTask_after_refresh_witness :
  Forall (fun v => indexable v = true) [build; task "test"; build_again]
  /\ exists m',
      turn (libs := more_libs) (Settle 0 (Fulfilled (PContent text_builds)))
        (suspend (ReadTasksContent (Some "/ws/.theia/tasks.json")) watching_a)
      = Some m'
      /\ forall l, getTask l (inst m')
                   = find (has_label (VStr l)) [build; task "test"; build_again].
Proof.
  assert (H : Forall (fun v => indexable v = true) [build; task "test"; build_again])
    by (repeat constructor).
  split; [exact H|].
  exact (getTask_after_refresh (libs := more_libs) watching_a
           (Some "/ws/.theia/tasks.json") text_builds
           (VObj [("tasks", VArr [build; task "test"; build_again])])
           [build; task "test"; build_again] eq_refl eq_refl H).
Defined.

(* ------------------------------------------------------------------ *)
(** ** An array that holds [null] *)

Lemma some_same_label_TypeError (acc : list Value) (x : Value) (e : Err) :
  some_same_label acc x = Rejected e -> e = TypeError.
Proof.
  induction acc as [|t rest IH]; simpl; [discriminate|].
  destruct t, x; simpl; try (intros [= <-]; reflexivity);
    try match goal with
        | |- (if ?c then _ else _) = _ -> _ => destruct c; [discriminate|exact IH]
        end; exact IH.
Qed.

Lemma some_same_label_unreadable (acc : list Value) (x : Value) :
  acc <> [] -> indexable x = false -> some_same_label acc x = Rejected TypeError.
Proof.
  intros Hacc Hx. destruct acc as [|t rest]; [congruence|]. simpl.
  destruct (get_prop t "label") as [tl|e] eqn:Ht.
  - destruct x; simpl in *; try discriminate; reflexivity.
  - destruct t; simpl in Ht; try discriminate; now injection Ht as <-.
Qed.

Lemma filter_loop_emits (tasks : list Value) :
  forall acc s,
    exists es,
      fst (filter_loop tasks acc s) = emit_all es s
      /\ forallb (fun e => negb (is_notification e)) es = true.
Proof.
  induction tasks as [|x rest IH]; intros acc s; simpl.
  - exists []. now rewrite emit_all_nil.
  - destruct (some_same_label acc x) as [[|]|e]; simpl.
    + destruct (get_prop x "label") as [l|e]; simpl.
      * destruct (IH acc (emit (LoggerError (MsgDuplicate TASKFILE l)) s)) as [es [-> Hes]].
        exists (LoggerError (MsgDuplicate TASKFILE l) :: es). split.
        -- apply emit_emit_all.
        -- exact Hes.
      * exists []. now rewrite emit_all_nil.
    + apply IH.
    + exists []. now rewrite emit_all_nil.
Qed.

Lemma filter_loop_unreadable (tasks : list Value) :
  forall acc s,
    acc <> [] ->
    existsb (fun t => negb (indexable t)) tasks = true ->
    snd (filter_loop tasks acc s) = Rejected TypeError.
Proof.
  induction tasks as [|x rest IH]; intros acc s Hacc Hbad; simpl in *.
  - discriminate.
  - destruct (indexable x) eqn:Hx; simpl in Hbad.
    + destruct (some_same_label acc x) as [[|]|e] eqn:Hsome; simpl.
      * rewrite (get_prop_indexable x Hx). now apply IH.
      * apply IH; [|exact Hbad]. now destruct acc.
      * now rewrite (some_same_label_TypeError acc x e Hsome).
    + now rewrite (some_same_label_unreadable acc x Hacc Hx).
Qed.

Lemma filterDuplicates_unreadable (tasks : list Value) (s : State) :
  2 <= List.length tasks ->
  existsb (fun t => negb (indexable t)) tasks = true ->
  snd (filterDuplicates (VArr tasks) s) = Rejected TypeError.
Proof.
  intros Hlen Hbad. unfold filterDuplicates. cbn [iterate].
  destruct tasks as [|x0 [|x1 rest]]; simpl in Hlen; try lia.
  change (filter_loop (x0 :: x1 :: rest) [] s) with (filter_loop (x1 :: rest) [x0] s).
  destruct (indexable x0) eqn:Hx0.
  - apply filter_loop_unreadable; [discriminate|].
    simpl in Hbad. now rewrite Hx0 in Hbad.
  - destruct x0; simpl in Hx0; try discriminate; reflexivity.
Qed.

Section NullTask.
Context {libs : Libraries}.

(** X8: readTasks and filterDuplicates, lines 153-188: when the array under
    ["tasks"] has at least two elements and one of them is [null], the
    label comparison throws inside the [try]: the refresh logs the read
    error of line 172, after the duplicate errors logged up to there,
    and leaves the map as it was. *)
Theorem null_task_fails_refresh (m : Machine) (u : option string)
  (content : string) (doc : Value) (tasks : list Value) :
  parse (stripComments content) = (doc, []) ->
  get_prop doc "tasks" = Fulfilled (VArr tasks) ->
  2 <= List.length tasks ->
  existsb (fun t => negb (indexable t)) tasks = true ->
  exists m' logged,
    turn (Settle (List.length (pending m)) (Fulfilled (PContent content)))
      (suspend (ReadTasksContent u) m)
    = Some m'
    /\ same_answers (inst m) (inst m')
    /\ effects (inst m') = effects (inst m) ++ logged ++ [LoggerError (MsgRead u)]
    /\ notifications (inst m') = notifications (inst m)
    /\ pending m' = pending m
    /\ outcomes m' = outcomes m ++ [RefreshTasksSettled (Fulfilled tt)].
Proof.
  intros Hparse Hdoc Hlen Hbad.
  pose proof (filterDuplicates_unreadable tasks (inst m) Hlen Hbad) as Hthrow.
  destruct (filter_loop_emits tasks [] (inst m)) as [es [Hes Hquiet]].
  assert (Hread : readTasks_content u (Fulfilled content) (inst m)
                  = (emit (LoggerError (MsgRead u)) (emit_all es (inst m)), None)).
  { unfold readTasks_content, readTasks_parse. rewrite Hparse, Hdoc.
    unfold filterDuplicates in *. cbn [iterate] in *.
    destruct (filter_loop tasks [] (inst m)) as [s1 r]. simpl in *. now subst. }
  exists (mkMachine (emit (LoggerError (MsgRead u)) (emit_all es (inst m)))
            (pending m) (outcomes m ++ [RefreshTasksSettled (Fulfilled tt)])), es.
  split.
  - apply (refresh_content_turn m u (Fulfilled (PContent content)) (Fulfilled content));
      [reflexivity|exact Hread].
  - cbn [inst pending outcomes]. split; [now apply same_answers_of_map|].
    split; [unfold emit, emit_all; cbn [effects]; now rewrite <- app_assoc|].
    split; [|split; reflexivity].
    unfold notifications, emit, emit_all. cbn [effects].
    rewrite !filter_app. simpl. rewrite app_nil_r.
    replace (filter is_notification es) with (@nil Effect); [now rewrite app_nil_r|].
    clear -Hquiet. induction es as [|e es IH]; simpl in *; [reflexivity|].
    apply andb_true_iff in Hquiet as [He Hes]. apply negb_true_iff in He.
    rewrite He. now apply IH.
Qed.

End NullTask.

Lemma null_task_fails_refresh_witness :
  2 <= List.length [task "a"; VNull]
  /\ existsb (fun t => negb (indexable t)) [task "a"; VNull] = true
  /\ exists m' logged,
      turn (libs := more_libs) (Settle 0 (Fulfilled (PContent text_a_null)))
        (suspend (ReadTasksContent (Some "/ws/.theia/tasks.json")) watching_a)
      = Some m'
      /\ same_answers (inst watching_a) (inst m')
      /\ effects (inst m')
         = effects (inst watching_a) ++ logged
           ++ [LoggerError (MsgRead (Some "/ws/.theia/tasks.json"))]
      /\ notifications (inst m') = notifications (inst watching_a)
      /\ pending m' = pending watching_a
      /\ outcomes m' = outcomes watching_a ++ [RefreshTasksSettled (Fulfilled tt)].
Proof.
  split; [simpl; lia|]. split; [reflexivity|].
  refine (null_task_fails_refresh (libs := more_libs) watching_a
            (Some "/ws/.theia/tasks.json") text_a_null
            (VObj [("tasks", VArr [task "a"; VNull])]) [task "a"; VNull]
            eq_refl eq_refl _ eq_refl).
  simpl. lia.
Defined.

(* ------------------------------------------------------------------ *)
(** ** Further properties of the change handler *)

Section Handler.
Context {libs : Libraries}.

(** X10: onDidFilesChanged, lines 50-62: as long as no configuration file is
    watched, every batch of changes is ignored: no state changes, nothing
    is read, nobody is notified. *)
Theorem changes_ignored_before_watch (m : Machine) (changes : list FileChange) :
  watchedConfigFileUri (inst m) = None ->
  turn (FilesChanged changes) m = Some m.
Proof.
  intros Hnone. unfold turn, dispatch, onDidFilesChanged. rewrite Hnone.
  replace (find _ changes) with (@None FileChange); [reflexivity|].
  induction changes as [|c rest IH]; simpl; [reflexivity|exact IH].
Qed.

(** X11: onDidFilesChanged, lines 50-62: with no client registered the change
    picked from a batch is handled without any call or log: a deletion
    clears the map and a creation or modification starts one refresh of
    the watched path. *)
Theorem change_without_client (m : Machine) (changes : list FileChange) (c : FileChange) :
  first_watched_change (watchedConfigFileUri (inst m)) changes c ->
  client (inst m) = None ->
  turn (FilesChanged changes) m
  = Some (match type c with
          | DELETED => mkMachine (set_tasksMap [] (inst m)) (pending m) (outcomes m)
          | _ => mkMachine (inst m)
                   (pending m ++ [ReadTasksExists (watchedConfigFileUri (inst m))])
                   (outcomes m)
          end).
Proof.
  intros Hc Hclient. rewrite (change_turn m changes c Hc).
  unfold onDidTaskFileChange, refreshTasks, suspend, with_inst, onDidFilesChanged_resume.
  destruct (type c); cbn [inst pending outcomes set_tasksMap client];
    rewrite Hclient; reflexivity.
Qed.

(** X12: onDidFilesChanged, lines 50-62: a client that throws does not stop
    the handler: its error is caught and logged right after the call,
    and the map is what the change made of it. *)
Theorem throwing_client_is_logged (m : Machine) (changes : list FileChange)
  (c : FileChange) (cl : TaskConfigurationClient) (err : Err) :
  first_watched_change (watchedConfigFileUri (inst m)) changes c ->
  client (inst m) = Some cl ->
  (forall labels, cl labels = Some err) ->
  exists m',
    turn (FilesChanged changes) m = Some m'
    /\ tasksMap (inst m') = match type c with DELETED => [] | _ => tasksMap (inst m) end
    /\ effects (inst m')
       = effects (inst m)
         ++ [TaskConfigurationChanged
               (match type c with DELETED => [] | _ => getTaskLabels (inst m) end);
             LoggerError (MsgCaught err)]
    /\ outcomes m' = outcomes m.
Proof.
  intros Hc Hclient Hthrows. eexists. rewrite (change_turn m changes c Hc).
  split; [reflexivity|].
  unfold onDidTaskFileChange, refreshTasks, suspend, with_inst, onDidFilesChanged_resume.
  destruct (type c); cbn [inst pending outcomes set_tasksMap client];
    rewrite Hclient, Hthrows; unfold emit, getTaskLabels;
    cbn [tasksMap effects map]; rewrite <- app_assoc; repeat split.
Qed.

End Handler.

Lemma changes_ignored_before_watch_witness :
  watchedConfigFileUri (inst new_machine) = None
  /\ turn (FilesChanged [mkFileChange "/ws/.theia/tasks.json" DELETED]) new_machine
     = Some new_machine.
Proof.
  split.
  - reflexivity.
  - exact (changes_ignored_before_watch new_machine
             [mkFileChange "/ws/.theia/tasks.json" DELETED] eq_refl).
Defined.

Lemma change_without_client_witness :
  first_watched_change (Some "/ws/.theia/tasks.json")
    [mkFileChange "/ws/.theia/tasks.json" DELETED]
    (mkFileChange "/ws/.theia/tasks.json" DELETED)
  /\ turn (FilesChanged [mkFileChange "/ws/.theia/tasks.json" DELETED])
       (mkMachine
          (mkState [(VStr "a", task "a")] (Some "/ws/.theia/tasks.json") None
             [DWatcherServer; DClear; DUnwatch 1] [])
          [] [])
     = Some (mkMachine
               (mkState [] (Some "/ws/.theia/tasks.json") None
                  [DWatcherServer; DClear; DUnwatch 1] [])
               [] []).
Proof.
  assert (H : first_watched_change (Some "/ws/.theia/tasks.json")
                [mkFileChange "/ws/.theia/tasks.json" DELETED]
                (mkFileChange "/ws/.theia/tasks.json" DELETED)).
  { exists [], []. repeat split. constructor. }
  split; [exact H|].
  exact (change_without_client
           (mkMachine
              (mkState [(VStr "a", task "a")] (Some "/ws/.theia/tasks.json") None
                 [DWatcherServer; DClear; DUnwatch 1] [])
              [] [])
           _ _ H eq_refl).
Defined.

Lemma throwing_client_is_logged_witness :
  first_watched_change (Some "/ws/.theia/tasks.json")
    [mkFileChange "/ws/.theia/tasks.json" ADDED]
    (mkFileChange "/ws/.theia/tasks.json" ADDED)
  /\ exists m',
      turn (FilesChanged [mkFileChange "/ws/.theia/tasks.json" ADDED])
        (with_inst (set_client (Some failing_client)) watching_a)
      = Some m'
      /\ tasksMap (inst m') = [(VStr "a", task "a")]
      /\ effects (inst m')
         = [WatchFileChanges "/ws/.theia/tasks.json"]
           ++ [TaskConfigurationChanged [VStr "a"];
               LoggerError (MsgCaught (Failure "client failed"))]
      /\ outcomes m' = [].
Proof.
  assert (H : first_watched_change (Some "/ws/.theia/tasks.json")
                [mkFileChange "/ws/.theia/tasks.json" ADDED]
                (mkFileChange "/ws/.theia/tasks.json" ADDED)).
  { exists [], []. repeat split. constructor. }
  split; [exact H|].
  exact (throwing_client_is_logged
           (with_inst (set_client (Some failing_client)) watching_a)
           _ _ failing_client (Failure "client failed") H eq_refl (fun _ => eq_refl)).
Defined.

(* ------------------------------------------------------------------ *)
(** ** Further properties of watchConfigurationFile *)

Section WatchMore.
Context {libs : Libraries}.

Lemma switch_call_turn (m : Machine) (rootUri : string) :
  uri_matches (watchedConfigFileUri (inst m)) (getConfigFileUri rootUri) = false ->
  turn (CallWatchConfigurationFile rootUri) m
  = Some (mkMachine
            (mkState (tasksMap (inst m)) (Some (getConfigFileUri rootUri)) (client (inst m))
               (toDispose (inst m))
               (effects (inst m) ++ [WatchFileChanges (getConfigFileUri rootUri)]))
            (pending m ++ [WatchRegister rootUri (getConfigFileUri rootUri)])
            (outcomes m)).
Proof.
  intros Hdiff. unfold turn, dispatch, watchConfigurationFile. now rewrite Hdiff.
Qed.

Lemma refresh_exists_true_turn (s : State) (waiting others : list Waiting)
  (o : list Outcome) (i : nat) (u : option string) :
  take_nth i waiting = Some (ReadTasksExists u, others) ->
  turn (Settle i (Fulfilled (PBool true))) (mkMachine s waiting o)
  = Some (mkMachine s (others ++ [ReadTasksContent u]) o).
Proof.
  intros Htake. unfold turn, dispatch. cbn [pending inst outcomes]. now rewrite Htake.
Qed.

(** X13: watchConfigurationFile, lines 83-99: the path is recorded as watched
    before the registration is awaited, so after a rejected registration
    a further call with the same root asks for no watch and starts no
    refresh; it only checks that the file exists. *)
Theorem failed_registration_is_not_retried (m : Machine) (rootUri : string) (e : Err) :
  uri_matches (watchedConfigFileUri (inst m)) (getConfigFileUri rootUri) = false ->
  exec [CallWatchConfigurationFile rootUri;
        Settle (List.length (pending m)) (Rejected e);
        CallWatchConfigurationFile rootUri] m
  = Some (mkMachine
            (mkState (tasksMap (inst m)) (Some (getConfigFileUri rootUri)) (client (inst m))
               (toDispose (inst m))
               (effects (inst m) ++ [WatchFileChanges (getConfigFileUri rootUri)]))
            (pending m ++ [WatchExists rootUri (getConfigFileUri rootUri)])
            (outcomes m ++ [WatchConfigurationFileSettled rootUri (Rejected e)])).
Proof.
  intros Hdiff. unfold exec. rewrite (switch_call_turn m rootUri Hdiff).
  unfold turn at 1, dispatch. cbn [pending inst outcomes]. rewrite take_nth_last.
  cbn [resume watchConfigurationFile_registered fold_left].
  unfold settle. cbn [pending inst outcomes].
  rewrite rewatch_turn; [reflexivity|]. cbn [inst watchedConfigFileUri].
  apply uri_matches_same.
Qed.

(** X14: watchConfigurationFile with refreshTasks, lines 83-99 and 137-175:
    on a root switch to a root whose file exists and holds an array of
    tasks, with every request fulfilled, the call returns true without a
    warning and the map ends up holding the first occurrences of the
    file's tasks, in whichever order the existence check of the call and
    the two requests of the refresh are answered. *)
Theorem watch_existing_file_populates (m : Machine) (rootUri : string) (watchId : nat)
  (content : string) (doc : Value) (tasks : list Value) :
  uri_matches (watchedConfigFileUri (inst m)) (getConfigFileUri rootUri) = false ->
  parse (stripComments content) = (doc, []) ->
  get_prop doc "tasks" = Fulfilled (VArr tasks) ->
  Forall (fun v => indexable v = true) tasks ->
  let i := List.length (pending m) in
  let start := [CallWatchConfigurationFile rootUri; Settle i (Fulfilled (PWatchId watchId))] in
  let final := refreshed tasks (registered (inst m) (getConfigFileUri rootUri) watchId) in
  let returned := WatchConfigurationFileSettled rootUri (Fulfilled true) in
  let refreshed_ok := RefreshTasksSettled (Fulfilled tt) in
  exec (start ++ [Settle i (Fulfilled (PBool true)); Settle i (Fulfilled (PBool true));
                  Settle i (Fulfilled (PContent content))]) m
  = Some (mkMachine final (pending m) (outcomes m ++ [returned; refreshed_ok]))
  /\ exec (start ++ [Settle i (Fulfilled (PBool true));
                     Settle (S i) (Fulfilled (PContent content));
                     Settle i (Fulfilled (PBool true))]) m
     = Some (mkMachine final (pending m) (outcomes m ++ [refreshed_ok; returned]))
  /\ exec (start ++ [Settle (S i) (Fulfilled (PBool true));
                     Settle i (Fulfilled (PBool true));
                     Settle i (Fulfilled (PContent content))]) m
     = Some (mkMachine final (pending m) (outcomes m ++ [returned; refreshed_ok])).
Proof.
  intros Hdiff Hparse Hdoc Hindex i start final returned refreshed_ok.
  subst i start final returned refreshed_ok.
  pose proof (switch_turns m rootUri watchId Hdiff) as Hswitch.
  set (u := Some (getConfigFileUri rootUri)) in *.
  set (config := getConfigFileUri rootUri) in *.
  repeat split; rewrite exec_app, Hswitch; unfold exec.
  - rewrite (refresh_exists_true_turn _ _ (pending m ++ [WatchExists rootUri config]) _ _ u)
      by apply take_nth_app_length.
    rewrite <- app_assoc. cbn [app].
    rewrite (watch_exists_turn _ (pending m) [ReadTasksContent u])
      by apply take_nth_app_length.
    rewrite (content_success_turn _ _ (pending m) _ _ u content doc tasks
               (take_nth_last _ _) Hparse Hdoc Hindex).
    unfold warned. now rewrite <- app_assoc.
  - rewrite (refresh_exists_true_turn _ _ (pending m ++ [WatchExists rootUri config]) _ _ u)
      by apply take_nth_app_length.
    rewrite (content_success_turn _ _ (pending m ++ [WatchExists rootUri config])
               _ _ u content doc tasks); [|  |exact Hparse|exact Hdoc|exact Hindex].
    + rewrite (watch_exists_turn _ (pending m) []) by apply take_nth_app_length.
      unfold warned. now rewrite app_nil_r, <- app_assoc.
    + rewrite <- app_assoc. apply take_nth_last_of_two.
  - replace (pending m ++ [ReadTasksExists u; WatchExists rootUri config])
      with ((pending m ++ [ReadTasksExists u]) ++ [WatchExists rootUri config])
      by now rewrite <- app_assoc.
    rewrite watch_exists_turn.
    + rewrite app_nil_r.
      rewrite (refresh_exists_true_turn _ _ (pending m) _ _ u) by apply take_nth_last.
      rewrite (content_success_turn _ _ (pending m) _ _ u content doc tasks
                 (take_nth_last _ _) Hparse Hdoc Hindex).
      unfold warned. now rewrite <- app_assoc.
    + rewrite app_nil_r, <- app_assoc. apply take_nth_last_of_two.
Qed.

(** X15: onDidFilesChanged with refreshTasks, lines 50-62 and 124-150: after
    a creation or modification of the watched file, once the refresh it
    started has read an array of tasks, the map holds the first
    occurrences of the file's tasks and no request of that refresh is
    left. *)
Theorem change_then_refresh_updates_map (m : Machine) (changes : list FileChange)
  (c : FileChange) (content : string) (doc : Value) (tasks : list Value) :
  first_watched_change (watchedConfigFileUri (inst m)) changes c ->
  type c <> DELETED ->
  parse (stripComments content) = (doc, []) ->
  get_prop doc "tasks" = Fulfilled (VArr tasks) ->
  Forall (fun v => indexable v = true) tasks ->
  exists m',
    exec [FilesChanged changes;
          Settle (List.length (pending m)) (Fulfilled (PBool true));
          Settle (List.length (pending m)) (Fulfilled (PContent content))] m
    = Some m'
    /\ tasksMap (inst m') = keyed (first_occurrences [] tasks)
    /\ getTaskLabels (inst m') = map label_of (first_occurrences [] tasks)
    /\ pending m' = pending m
    /\ outcomes m' = outcomes m ++ [RefreshTasksSettled (Fulfilled tt)].
Proof.
  intros Hc Htype Hparse Hdoc Hindex. eexists. unfold exec.
  rewrite (change_turn m changes c Hc).
  assert (Hstart : with_inst onDidFilesChanged_resume (onDidTaskFileChange c m)
                   = mkMachine (onDidFilesChanged_resume (inst m))
                       (pending m ++ [ReadTasksExists (watchedConfigFileUri (inst m))])
                       (outcomes m)).
  { unfold onDidTaskFileChange. destruct (type c); try congruence; reflexivity. }
  rewrite Hstart.
  rewrite (refresh_exists_true_turn _ _ (pending m) _ _ (watchedConfigFileUri (inst m)))
    by apply take_nth_last.
  rewrite (content_success_turn _ _ (pending m) _ _ (watchedConfigFileUri (inst m))
             content doc tasks (take_nth_last _ _) Hparse Hdoc Hindex).
  split; [reflexivity|]. cbn [inst pending outcomes]. repeat split.
  unfold getTaskLabels, refreshed, set_tasksMap, keyed. cbn [tasksMap].
  now rewrite map_map.
Qed.

End WatchMore.

Lemma failed_registration_is_not_retried_witness :
  uri_matches (watchedConfigFileUri (inst new_machine)) (getConfigFileUri "/ws") = false
  /\ exec [CallWatchConfigurationFile "/ws"; Settle 0 (Rejected (Failure "watch failed"));
           CallWatchConfigurationFile "/ws"] new_machine
     = Some (mkMachine
               (mkState [] (Some "/ws/.theia/tasks.json") None [DWatcherServer; DClear]
                  [WatchFileChanges "/ws/.theia/tasks.json"])
               [WatchExists "/ws" "/ws/.theia/tasks.json"]
               [WatchConfigurationFileSettled "/ws" (Rejected (Failure "watch failed"))]).
Proof.
  split.
  - reflexivity.
  - exact (failed_registration_is_not_retried new_machine "/ws"
             (Failure "watch failed") eq_refl).
Defined.

Lemma watch_existing_file_populates_witness :
  Forall (fun v => indexable v = true) [build; task "test"; build_again]
  /\ exec (libs := more_libs)
       [CallWatchConfigurationFile "/ws"; Settle 0 (Fulfilled (PWatchId 1));
        Settle 0 (Fulfilled (PBool true)); Settle 0 (Fulfilled (PBool true));
        Settle 0 (Fulfilled (PContent text_builds))] new_machine
     = Some (mkMachine
               (mkState [(VStr "build", build); (VStr "test", task "test")]
                  (Some "/ws/.theia/tasks.json") None
                  [DWatcherServer; DClear; DUnwatch 1]
                  [WatchFileChanges "/ws/.theia/tasks.json";
                   LoggerError (MsgDuplicate TASKFILE (VStr "build"))])
               []
               [WatchConfigurationFileSettled "/ws" (Fulfilled true);
                RefreshTasksSettled (Fulfilled tt)]).
Proof.
  assert (H : Forall (fun v => indexable v = true) [build; task "test"; build_again])
    by (repeat constructor).
  split; [exact H|].
  exact (proj1 (watch_existing_file_populates (libs := more_libs) new_machine "/ws" 1
                  text_builds (VObj [("tasks", VArr [build; task "test"; build_again])])
                  [build; task "test"; build_again] eq_refl eq_refl eq_refl H)).
Defined.

Lemma change_then_refresh_updates_map_witness :
  first_watched_change (watchedConfigFileUri (inst watching_a))
    [mkFileChange "/ws/.theia/tasks.json" UPDATED]
    (mkFileChange "/ws/.theia/tasks.json" UPDATED)
  /\ UPDATED <> DELETED
  /\ exists m',
      exec (libs := more_libs)
        [FilesChanged [mkFileChange "/ws/.theia/tasks.json" UPDATED];
         Settle 0 (Fulfilled (PBool true));
         Settle 0 (Fulfilled (PContent text_builds))] watching_a
      = Some m'
      /\ tasksMap (inst m') = [(VStr "build", build); (VStr "test", task "test")]
      /\ getTaskLabels (inst m') = [VStr "build"; VStr "test"]
      /\ pending m' = []
      /\ outcomes m' = [RefreshTasksSettled (Fulfilled tt)].
Proof.
  assert (H : first_watched_change (watchedConfigFileUri (inst watching_a))
                [mkFileChange "/ws/.theia/tasks.json" UPDATED]
                (mkFileChange "/ws/.theia/tasks.json" UPDATED)).
  { exists [], []. repeat split. constructor. }
  assert (Hindex : Forall (fun v => indexable v = true) [build; task "test"; build_again])
    by (repeat constructor).
  split; [exact H|]. split; [discriminate|].
  refine (change_then_refresh_updates_map (libs := more_libs) watching_a _ _
            text_builds (VObj [("tasks", VArr [build; task "test"; build_again])])
            [build; task "test"; build_again] H _ eq_refl eq_refl Hindex).
  discriminate.
Defined.

(* ------------------------------------------------------------------ *)
(** ** Disposal *)

Lemma run_disposables_effects (ds : list Disposable) :
  forall s,
    effects (fold_left (fun s d => run_disposable d s) ds s)
    = effects s ++ flat_map disposal_effect ds.
Proof.
  induction ds as [|d ds IH]; intros s; simpl.
  - now rewrite app_nil_r.
  - rewrite IH. destruct d; simpl; try reflexivity; now rewrite <- app_assoc.
Qed.

Lemma run_disposables_watched (ds : list Disposable) :
  forall s,
    watchedConfigFileUri (fold_left (fun s d => run_disposable d s) ds s)
    = watchedConfigFileUri s.
Proof.
  induction ds as [|d ds IH]; intros s; simpl; [reflexivity|].
  rewrite IH. now destruct d.
Qed.

Lemma run_disposables_stay_cleared (ds : list Disposable) :
  forall s,
    tasksMap s = [] /\ client s = None ->
    tasksMap (fold_left (fun s d => run_disposable d s) ds s) = []
    /\ client (fold_left (fun s d => run_disposable d s) ds s) = None.
Proof.
  induction ds as [|d ds IH]; intros s Hs; simpl; [exact Hs|].
  apply IH. destruct d; simpl; auto.
Qed.

Lemma run_disposables_clear (ds : list Disposable) :
  forall s,
    In DClear ds ->
    tasksMap (fold_left (fun s d => run_disposable d s) ds s) = []
    /\ client (fold_left (fun s d => run_disposable d s) ds s) = None.
Proof.
  induction ds as [|d ds IH]; intros s Hin; simpl; [destruct Hin|].
  destruct Hin as [->|Hin].
  - apply run_disposables_stay_cleared. split; reflexivity.
  - now apply IH.
Qed.

(** X16: dispose with the disposables of lines 47, 65-68 and 88-90, the
    collection running every pushed disposable once, the last pushed
    first: as long as the disposable of the constructor is queued,
    dispose empties the map, forgets the client, asks the watcher server
    to unwatch every registration whose unwatch was queued, and leaves
    nothing queued, so that a second dispose changes nothing. *)
Theorem dispose_releases_everything (s : State) :
  In DClear (toDispose s) ->
  tasksMap (dispose s) = []
  /\ getTaskLabels (dispose s) = []
  /\ client (dispose s) = None
  /\ effects (dispose s) = effects s ++ flat_map disposal_effect (rev (toDispose s))
  /\ (forall watchId, In (DUnwatch watchId) (toDispose s) ->
                      In (UnwatchFileChanges watchId) (effects (dispose s)))
  /\ toDispose (dispose s) = []
  /\ dispose (dispose s) = dispose s.
Proof.
  intros Hclear.
  destruct (run_disposables_clear (rev (toDispose s)) s) as [Hmap Hclient];
    [now apply in_rev in Hclear|].
  assert (Heffects : effects (dispose s)
                     = effects s ++ flat_map disposal_effect (rev (toDispose s))).
  { unfold dispose. cbn [effects]. apply run_disposables_effects. }
  unfold getTaskLabels. repeat split.
  - exact Hmap.
  - unfold dispose. cbn [tasksMap]. now rewrite Hmap.
  - exact Hclient.
  - exact Heffects.
  - intros watchId Hin. rewrite Heffects. apply in_or_app. right.
    apply in_flat_map. exists (DUnwatch watchId). split; [now apply in_rev in Hin|].
    now left.
Qed.

Lemma dispose_releases_everything_witness :
  In DClear (toDispose (inst watching_a))
  /\ dispose (inst watching_a)
     = mkState [] (Some "/ws/.theia/tasks.json") None []
         [WatchFileChanges "/ws/.theia/tasks.json"; UnwatchFileChanges 1;
          WatcherServerDispose]
  /\ dispose (dispose (inst watching_a)) = dispose (inst watching_a).
Proof.
  assert (H : In DClear (toDispose (inst watching_a))) by (simpl; auto).
  split; [exact H|]. split; [reflexivity|].
  exact (proj2 (proj2 (proj2 (proj2 (proj2 (proj2
           (dispose_releases_everything (inst watching_a) H))))))).
Defined.

Section DisposeWatch.
Context {libs : Libraries}.

(** X17: dispose and watchConfigurationFile, lines 65-68 and 83-99: dispose
    does not reset the watched path, so a call of watchConfigurationFile
    with the same root after dispose asks for no new watch and starts no
    refresh; it only checks that the file exists. *)
Theorem dispose_keeps_watched_path (m : Machine) (rootUri : string) :
  watchedConfigFileUri (inst m) = Some (getConfigFileUri rootUri) ->
  exec [CallDispose; CallWatchConfigurationFile rootUri] m
  = Some (mkMachine (dispose (inst m))
            (pending m ++ [WatchExists rootUri (getConfigFileUri rootUri)])
            (outcomes m)).
Proof.
  intros Hwatched.
  assert (Hkept : watchedConfigFileUri (dispose (inst m)) = watchedConfigFileUri (inst m)).
  { unfold dispose. cbn [watchedConfigFileUri]. apply run_disposables_watched. }
  unfold exec, turn at 1, dispatch, with_inst. cbn [fold_left].
  rewrite rewatch_turn; [reflexivity|].
  cbn [inst]. rewrite Hkept, Hwatched. apply uri_matches_same.
Qed.

End DisposeWatch.

Lemma dispose_keeps_watched_path_witness :
  watchedConfigFileUri (inst watching_a) = Some (getConfigFileUri "/ws")
  /\ exec [CallDispose; CallWatchConfigurationFile "/ws"] watching_a
     = Some (mkMachine
               (mkState [] (Some "/ws/.theia/tasks.json") None []
                  [WatchFileChanges "/ws/.theia/tasks.json"; UnwatchFileChanges 1;
                   WatcherServerDispose])
               [WatchExists "/ws" "/ws/.theia/tasks.json"] []).
Proof.
  split.
  - reflexivity.
  - exact (dispose_keeps_watched_path watching_a "/ws" eq_refl).
Defined.

(* ------------------------------------------------------------------ *)
(** ** Who notifies the client *)

Lemma notifications_emit_all (es : list Effect) (s : State) :
  forallb (fun e => negb (is_notification e)) es = true ->
  notifications (emit_all es s) = notifications s.
Proof.
  intros Hquiet. unfold notifications, emit_all. cbn [effects]. rewrite filter_app.
  replace (filter is_notification es) with (@nil Effect); [apply app_nil_r|].
  induction es as [|e es IH]; simpl in *; [reflexivity|].
  apply andb_true_iff in Hquiet as [He Hes]. apply negb_true_iff in He.
  rewrite He. now apply IH.
Qed.

Lemma notifications_emit (e : Effect) (s : State) :
  is_notification e = false -> notifications (emit e s) = notifications s.
Proof.
  intros He. unfold notifications, emit. cbn [effects].
  rewrite filter_app. simpl. rewrite He. apply app_nil_r.
Qed.

Lemma filterDuplicates_notifications (v : Value) (s : State) :
  notifications (fst (filterDuplicates v s)) = notifications s.
Proof.
  unfold filterDuplicates. destruct (iterate v) as [items|e]; [|reflexivity].
  destruct (filter_loop_emits items [] s) as [es [-> Hes]].
  now apply notifications_emit_all.
Qed.

Lemma refreshTasks_resume_effects (r : Settled (option (list Value))) (s : State) :
  effects (fst (refreshTasks_resume r s)) = effects s.
Proof.
  unfold refreshTasks_resume. destruct r as [[arr|]|e]; try reflexivity.
  now destruct (set_all arr (tasksMap (set_tasksMap [] s))).
Qed.

Lemma dispose_notifications (s : State) :
  notifications (dispose s) = notifications s.
Proof.
  unfold notifications, dispose. cbn [effects].
  rewrite run_disposables_effects, filter_app.
  replace (filter is_notification (flat_map disposal_effect (rev (toDispose s))))
    with (@nil Effect); [apply app_nil_r|].
  induction (rev (toDispose s)) as [|d ds IH]; simpl; [reflexivity|].
  rewrite filter_app, <- IH. now destruct d.
Qed.

Section Notifications.
Context {libs : Libraries}.

Lemma readTasks_content_notifications (u : option string) (r : Settled string) (s : State) :
  notifications (fst (readTasks_content u r s)) = notifications s.
Proof.
  unfold readTasks_content, readTasks_parse.
  destruct r as [content|e]; [|now apply notifications_emit].
  destruct (parse (stripComments content)) as [doc [|e errors]].
  - destruct (get_prop doc "tasks") as [v|e]; [|now apply notifications_emit].
    pose proof (filterDuplicates_notifications v s) as Hf.
    destruct (filterDuplicates v s) as [s' [filtered|e]]; simpl in *; [exact Hf|].
    now rewrite notifications_emit.
  - cbn [fst]. rewrite log_parse_errors_emit_all. apply notifications_emit_all.
    clear. induction (e :: errors) as [|x xs IH]; simpl; [reflexivity|exact IH].
Qed.

Lemma resume_refresh_notifications (r : Settled (option (list Value))) (m : Machine) :
  notifications (inst (run_microtask m (ResumeRefresh r))) = notifications (inst m).
Proof.
  unfold run_microtask. pose proof (refreshTasks_resume_effects r (inst m)) as Hr.
  destruct (refreshTasks_resume r (inst m)) as [s' result]. simpl in *.
  unfold notifications. now rewrite Hr.
Qed.

(** X18: The whole class: the client is called only in the turn of a batch of
    changes (line 56).  A call of setClient, watchConfigurationFile or
    dispose, and the settling of any request, with the refresh it
    completes, never notify the client, even when they change the map. *)
Theorem only_change_batches_notify (e : Event) (m m' : Machine) :
  is_files_changed e = false ->
  turn e m = Some m' ->
  notifications (inst m') = notifications (inst m).
Proof.
  intros He Hturn. unfold turn in Hturn.
  destruct e as [c|rootUri| |changes|i r]; simpl in He; try discriminate;
    cbn [dispatch] in Hturn.
  - injection Hturn as <-. reflexivity.
  - injection Hturn as <-. unfold watchConfigurationFile.
    destruct (uri_matches _ _); [reflexivity|]. cbn [fold_left suspend with_inst inst].
    rewrite notifications_emit by reflexivity. reflexivity.
  - injection Hturn as <-. cbn [fold_left with_inst inst]. apply dispose_notifications.
  - destruct (take_nth i (pending m)) as [[w others]|]; [|discriminate].
    destruct w as [u|u|root config|root config];
      destruct r as [[b|content|n]|err]; unfold resume in Hturn; try discriminate.
    + destruct b; injection Hturn as <-; reflexivity.
    + injection Hturn as <-. reflexivity.
    + pose proof (readTasks_content_notifications u (Fulfilled content) (inst m)) as Hq.
      cbn [inst] in Hturn.
      destruct (readTasks_content u (Fulfilled content) (inst m)) as [s' result].
      injection Hturn as <-.
      change (notifications
                (inst (run_microtask (mkMachine s' others (outcomes m))
                         (ResumeRefresh (Fulfilled result))))
              = notifications (inst m)).
      rewrite resume_refresh_notifications. exact Hq.
    + pose proof (readTasks_content_notifications u (Rejected err) (inst m)) as Hq.
      cbn [inst] in Hturn.
      destruct (readTasks_content u (Rejected err) (inst m)) as [s' result].
      injection Hturn as <-.
      change (notifications
                (inst (run_microtask (mkMachine s' others (outcomes m))
                         (ResumeRefresh (Fulfilled result))))
              = notifications (inst m)).
      rewrite resume_refresh_notifications. exact Hq.
    + injection Hturn as <-. reflexivity.
    + injection Hturn as <-. reflexivity.
    + injection Hturn as <-. destruct b; [reflexivity|].
      cbn [fold_left watchConfigurationFile_exists settle with_inst inst].
      rewrite notifications_emit by reflexivity. reflexivity.
    + injection Hturn as <-. reflexivity.
Qed.

End Notifications.

Lemma only_change_batches_notify_witness :
  is_files_changed (Settle 0 (Fulfilled (PContent text_builds))) = false
  /\ turn (libs := more_libs) (Settle 0 (Fulfilled (PContent text_builds)))
       (suspend (ReadTasksContent (Some "/ws/.theia/tasks.json")) watching_a)
     = Some (mkMachine
               (refreshed [build; task "test"; build_again] (inst watching_a))
               [] [RefreshTasksSettled (Fulfilled tt)])
  /\ notifications (refreshed [build; task "test"; build_again] (inst watching_a))
     = notifications (inst watching_a).
Proof.
  split; [reflexivity|]. split; [reflexivity|].
  exact (only_change_batches_notify (libs := more_libs)
           (Settle 0 (Fulfilled (PContent text_builds)))
           (suspend (ReadTasksContent (Some "/ws/.theia/tasks.json")) watching_a)
           (mkMachine (refreshed [build; task "test"; build_again] (inst watching_a))
              [] [RefreshTasksSettled (Fulfilled tt)])
           eq_refl eq_refl).
Defined.

(* ------------------------------------------------------------------ *)
(** ** Overlapping refreshes *)

Section Overlap.
Context {libs : Libraries}.

(** X19: refreshTasks, lines 137-150: of two refreshes under way at once, the
    one whose content arrives last decides the map, whichever was started
    first: the map is replaced at the end of each refresh and nothing
    orders them. *)
Theorem last_completed_refresh_wins (m : Machine) (u1 u2 : option string)
  (content1 content2 : string) (doc1 doc2 : Value) (tasks1 tasks2 : list Value) :
  parse (stripComments content1) = (doc1, []) ->
  get_prop doc1 "tasks" = Fulfilled (VArr tasks1) ->
  Forall (fun v => indexable v = true) tasks1 ->
  parse (stripComments content2) = (doc2, []) ->
  get_prop doc2 "tasks" = Fulfilled (VArr tasks2) ->
  Forall (fun v => indexable v = true) tasks2 ->
  let i := List.length (pending m) in
  let both :=
    mkMachine (inst m) (pending m ++ [ReadTasksContent u1; ReadTasksContent u2])
      (outcomes m) in
  exists m12 m21,
    exec [Settle i (Fulfilled (PContent content1));
          Settle i (Fulfilled (PContent content2))] both = Some m12
    /\ tasksMap (inst m12) = keyed (first_occurrences [] tasks2)
    /\ exec [Settle (S i) (Fulfilled (PContent content2));
             Settle i (Fulfilled (PContent content1))] both = Some m21
    /\ tasksMap (inst m21) = keyed (first_occurrences [] tasks1)
    /\ pending m12 = pending m /\ pending m21 = pending m.
Proof.
  intros Hp1 Hd1 Hi1 Hp2 Hd2 Hi2 i both. subst i both. do 2 eexists. unfold exec.
  rewrite (content_success_turn _ _ (pending m ++ [ReadTasksContent u2]) _ _ u1
             content1 doc1 tasks1 (take_nth_last_but_one _ _ _) Hp1 Hd1 Hi1).
  rewrite (content_success_turn _ _ (pending m) _ _ u2
             content2 doc2 tasks2 (take_nth_last _ _) Hp2 Hd2 Hi2).
  rewrite (content_success_turn _ _ (pending m ++ [ReadTasksContent u1]) _ _ u2
             content2 doc2 tasks2 (take_nth_last_of_two _ _ _) Hp2 Hd2 Hi2).
  rewrite (content_success_turn _ _ (pending m) _ _ u1
             content1 doc1 tasks1 (take_nth_last _ _) Hp1 Hd1 Hi1).
  repeat split.
Qed.

End Overlap.

Lemma last_completed_refresh_wins_witness :
  Forall (fun v => indexable v = true) [task "b"]
  /\ Forall (fun v => indexable v = true) [build; task "test"; build_again]
  /\ exists m12 m21,
      exec (libs := more_libs)
        [Settle 0 (Fulfilled (PContent text_b));
         Settle 0 (Fulfilled (PContent text_builds))]
        (mkMachine (inst watching_a)
           [ReadTasksContent (Some "/ws/.theia/tasks.json");
            ReadTasksContent (Some "/ws/.theia/tasks.json")] [])
      = Some m12
      /\ tasksMap (inst m12) = [(VStr "build", build); (VStr "test", task "test")]
      /\ exec (libs := more_libs)
           [Settle 1 (Fulfilled (PContent text_builds));
            Settle 0 (Fulfilled (PContent text_b))]
           (mkMachine (inst watching_a)
              [ReadTasksContent (Some "/ws/.theia/tasks.json");
               ReadTasksContent (Some "/ws/.theia/tasks.json")] [])
         = Some m21
      /\ tasksMap (inst m21) = [(VStr "b", task "b")]
      /\ pending m12 = [] /\ pending m21 = [].
Proof.
  assert (H1 : Forall (fun v => indexable v = true) [task "b"]) by (repeat constructor).
  assert (H2 : Forall (fun v => indexable v = true) [build; task "test"; build_again])
    by (repeat constructor).
  split; [exact H1|]. split; [exact H2|].
  exact (last_completed_refresh_wins (libs := more_libs) watching_a
           (Some "/ws/.theia/tasks.json") (Some "/ws/.theia/tasks.json")
           text_b text_builds
           (VObj [("tasks", VArr [task "b"])])
           (VObj [("tasks", VArr [build; task "test"; build_again])])
           [task "b"] [build; task "test"; build_again]
           eq_refl eq_refl H1 eq_refl eq_refl H2).
Defined.

Lemma getTask_defined_on_labels_witness :
  In (VStr "a") (getTaskLabels (inst watching_a))
  /\ exists t, getTask "a" (inst watching_a) = Some t.
Proof.
  assert (H : In (VStr "a") (getTaskLabels (inst watching_a))) by (simpl; auto).
  split; [exact H|].
  exact (proj2 (getTask_defined_on_labels (inst watching_a) "a") H).
Defined.
